(** * PS/2 scan code set 2 decoder and key matrix (converter/ps2_usb/matrix.c)

    A shallow embedding of [matrix_scan], [matrix_make], [matrix_break],
    [matrix_clear], [matrix_is_on], [matrix_get_row] and [matrix_key_count],
    built without EXTRA_BUTTONS_ENABLE and THUMBSTICK_ENABLE.  The code
    under these two switches ([map_value], [thumbstick_read],
    [process_thumbstick], [read_buttons] and the debouncing block of
    [matrix_scan]) is embedded beside it, under names of its own.

    The file-scope statics ([matrix], [is_modified], the function-static
    [state]) are the fields of one record that is threaded through a small
    state-and-error monad.  An array access outside [matrix] is undefined
    behaviour in C; here it is the failure [None] of the monad.  The calls
    to the diagnostic printers ([print], [xprintf], [printf]) have no effect
    on the program state and are left out. *)

From Stdlib Require Import ZArith Lia Bool.
From stdpp Require Import base tactics option list.

Local Open Scope Z_scope.

(** ** Constants and macros *)

(** Modelled from the spec: MATRIX_ROWS is defined in config.h, which is not
    part of the sources at hand.  The spec sizes the matrix "to cover the full
    0-255 coordinate space divided into 8-bit rows", and the comment above the
    declaration of [matrix] says "256(32x8)cell matrix". *)
Definition MATRIX_ROWS : nat := 32.

Definition ROW (code : Z) : Z := Z.shiftr code 3.
Definition COL (code : Z) : Z := Z.land code 0x07.

Definition F7 : Z := 0x83.
Definition PRINT_SCREEN : Z := 0xFC.
Definition PAUSE : Z := 0xFE.

(** Conversion to [uint8_t] on assignment. *)
Definition to_uint8 (z : Z) : Z := z mod 256.

(** Modelled from the spec: bitpop is declared in util.h, which is not part of
    the sources at hand.  The spec calls it the population count of a row; its
    argument is a [uint8_t], so the bits 0 to 7 are counted. *)
Definition bitpop (bits : Z) : Z :=
  Z.of_nat (length (List.filter (fun i => Z.testbit bits (Z.of_nat i)) (seq 0 8))).

(** ** Program state *)

(** The scan code reading states of [matrix_scan]. *)
Inductive scan_state : Set :=
  | INIT
  | F0
  | E0
  | E0_F0
  | E1
  | E1_14
  | E1_14_77
  | E1_14_77_E1
  | E1_14_77_E1_F0
  | E1_14_77_E1_F0_14
  | E1_14_77_E1_F0_14_F0
  | E0_7E
  | E0_7E_E0
  | E0_7E_E0_F0.

(** Calls that leave the module: [clear_keyboard()] and
    [led_set(host_keyboard_leds())]. *)
Inductive ext_call : Set :=
  | Clear_keyboard
  | Led_set.

Record machine : Type := Machine {
  matrix : list Z;          (* static uint8_t matrix[MATRIX_ROWS] *)
  is_modified : bool;       (* static bool is_modified *)
  state : scan_state;       (* static enum { ... } state, local to matrix_scan *)
  calls : list ext_call     (* calls made to the collaborators, oldest first *)
}.

(** What [ps2_host_recv()] hands over on one tick: the returned byte and the
    value of the global [ps2_error] after the call.  [matrix_scan] has no
    test for "nothing received" other than [ps2_error]. *)
Record ps2_rx : Type := Rx {
  rx_code : Z;
  rx_error : Z
}.

(** ** The monad *)

Definition M (A : Type) : Type := machine -> option (A * machine).

Definition ret {A} (a : A) : M A := fun s => Some (a, s).

Definition bind {A B} (m : M A) (k : A -> M B) : M B :=
  fun s => match m s with
           | Some (a, s') => k a s'
           | None => None
           end.

Notation "x <- m ;; k" := (bind m (fun x => k))
  (at level 20, m at level 99, k at level 200, only parsing).
Notation "m ;;; k" := (bind m (fun _ => k))
  (at level 100, k at level 200, right associativity, only parsing).

Definition set_state (st : scan_state) : M unit :=
  fun s => Some (tt, Machine (matrix s) (is_modified s) st (calls s)).

Definition get_state : M scan_state :=
  fun s => Some (state s, s).

Definition set_is_modified (b : bool) : M unit :=
  fun s => Some (tt, Machine (matrix s) b (state s) (calls s)).

Definition call (c : ext_call) : M unit :=
  fun s => Some (tt, Machine (matrix s) (is_modified s) (state s) (calls s ++ [c])).

Definition clear_keyboard : M unit := call Clear_keyboard.
Definition led_set_host_keyboard_leds : M unit := call Led_set.

(** [matrix[row]] as an rvalue. *)
Definition matrix_read (row : Z) : M Z :=
  fun s => match matrix s !! Z.to_nat row with
           | Some r => Some (r, s)
           | None => None
           end.

(** [matrix[row] = v]. *)
Definition matrix_write (row : Z) (v : Z) : M unit :=
  fun s => match matrix s !! Z.to_nat row with
           | Some _ =>
               Some (tt, Machine (<[Z.to_nat row := to_uint8 v]> (matrix s))
                                 (is_modified s) (state s) (calls s))
           | None => None
           end.

(** ** The key matrix *)

(** [matrix[row] & (1<<col)], converted to [bool].  Within this file [col]
    is always [COL(code)], below 8. *)
Definition matrix_is_on (row col : Z) : M bool :=
  r <- matrix_read row ;;
  ret (negb (Z.land r (Z.shiftl 1 col) =? 0)).

Definition matrix_get_row (row : Z) : M Z :=
  matrix_read row.

Definition matrix_make (code : Z) : M unit :=
  on <- matrix_is_on (ROW code) (COL code) ;;
  if negb on then
    r <- matrix_read (ROW code) ;;
    matrix_write (ROW code) (Z.lor r (Z.shiftl 1 (COL code))) ;;;
    set_is_modified true
  else ret tt.

Definition matrix_break (code : Z) : M unit :=
  on <- matrix_is_on (ROW code) (COL code) ;;
  if on then
    r <- matrix_read (ROW code) ;;
    matrix_write (ROW code) (Z.land r (Z.lnot (Z.shiftl 1 (COL code)))) ;;;
    set_is_modified true
  else ret tt.

(** The loop [for (uint8_t i = ..; i < MATRIX_ROWS; i++) matrix[i] = 0x00;]
    with [n] iterations left to run. *)
Fixpoint matrix_clear_loop (n : nat) (i : Z) : M unit :=
  match n with
  | O => ret tt
  | S n' => matrix_write i 0x00 ;;; matrix_clear_loop n' (i + 1)
  end.

Definition matrix_clear : M unit := matrix_clear_loop MATRIX_ROWS 0.

(** The loop of [matrix_key_count]; [count] is a [uint8_t]. *)
Fixpoint matrix_key_count_loop (n : nat) (i : Z) (count : Z) : M Z :=
  match n with
  | O => ret count
  | S n' =>
      r <- matrix_read i ;;
      matrix_key_count_loop n' (i + 1) (to_uint8 (count + bitpop r))
  end.

Definition matrix_key_count : M Z := matrix_key_count_loop MATRIX_ROWS 0 0.

(** The part of [matrix_init] that touches this module's state: all keys
    off.  [ps2_host_init()] and [debug_enable] belong to other modules. *)
Definition matrix_init : M unit := matrix_clear_loop MATRIX_ROWS 0.

(** The statics as the C runtime initialises them: [matrix] zeroed,
    [is_modified = false], [state = INIT]; no collaborator called yet. *)
Definition power_on : machine :=
  Machine (replicate MATRIX_ROWS 0x00) false INIT [].

(** ** The decoder *)

(** The [switch (state)] of [matrix_scan]. *)
Definition scan_switch (code : Z) : M unit :=
  st <- get_state ;;
  match st with
  | INIT =>
      if code =? 0xE0 then set_state E0
      else if code =? 0xF0 then set_state F0
      else if code =? 0xE1 then set_state E1
      else if code =? 0x83 then matrix_make F7 ;;; set_state INIT
      else if code =? 0x84 then matrix_make PRINT_SCREEN ;;; set_state INIT
      else if code =? 0x00 then
        matrix_clear ;;; clear_keyboard ;;; set_state INIT
      else if (code =? 0xAA) || (code =? 0xFC) then
        led_set_host_keyboard_leds ;;; set_state INIT
      else
        (if code <? 0x80 then matrix_make code
         else matrix_clear ;;; clear_keyboard) ;;;
        set_state INIT
  | E0 =>
      if (code =? 0x12) || (code =? 0x59) then set_state INIT
      else if code =? 0x7E then set_state E0_7E
      else if code =? 0xF0 then set_state E0_F0
      else
        (if code <? 0x80 then matrix_make (Z.lor code 0x80)
         else matrix_clear ;;; clear_keyboard) ;;;
        set_state INIT
  | F0 =>
      if code =? 0x83 then matrix_break F7 ;;; set_state INIT
      else if code =? 0x84 then matrix_break PRINT_SCREEN ;;; set_state INIT
      else if code =? 0xF0 then matrix_clear ;;; clear_keyboard
      else
        (if code <? 0x80 then matrix_break code
         else matrix_clear ;;; clear_keyboard) ;;;
        set_state INIT
  | E0_F0 =>
      if (code =? 0x12) || (code =? 0x59) then set_state INIT
      else
        (if code <? 0x80 then matrix_break (Z.lor code 0x80)
         else matrix_clear ;;; clear_keyboard) ;;;
        set_state INIT
  | E1 =>
      if code =? 0x14 then set_state E1_14 else set_state INIT
  | E1_14 =>
      if code =? 0x77 then set_state E1_14_77 else set_state INIT
  | E1_14_77 =>
      if code =? 0xE1 then set_state E1_14_77_E1 else set_state INIT
  | E1_14_77_E1 =>
      if code =? 0xF0 then set_state E1_14_77_E1_F0 else set_state INIT
  | E1_14_77_E1_F0 =>
      if code =? 0x14 then set_state E1_14_77_E1_F0_14 else set_state INIT
  | E1_14_77_E1_F0_14 =>
      if code =? 0xF0 then set_state E1_14_77_E1_F0_14_F0 else set_state INIT
  | E1_14_77_E1_F0_14_F0 =>
      if code =? 0x77 then matrix_make PAUSE ;;; set_state INIT
      else set_state INIT
  | E0_7E =>
      if code =? 0xE0 then set_state E0_7E_E0 else set_state INIT
  | E0_7E_E0 =>
      if code =? 0xF0 then set_state E0_7E_E0_F0 else set_state INIT
  | E0_7E_E0_F0 =>
      (if code =? 0x7E then matrix_make PAUSE else ret tt) ;;;
      set_state INIT
  end.

(** The 'pseudo break code' hack at the head of [matrix_scan]. *)
Definition pseudo_break : M unit :=
  on <- matrix_is_on (ROW PAUSE) (COL PAUSE) ;;
  if on then matrix_break PAUSE else ret tt.

(** [matrix_scan], one tick; [rx] is what [ps2_host_recv()] yields on it. *)
Definition matrix_scan (rx : ps2_rx) : M Z :=
  set_is_modified false ;;;
  pseudo_break ;;;
  let code := rx_code rx in
  (if rx_error rx =? 0 then scan_switch code else ret tt) ;;;
  ret 1.

(** Successive ticks, one transport outcome each. *)
Fixpoint run (rxs : list ps2_rx) (s : machine) : option machine :=
  match rxs with
  | [] => Some s
  | rx :: rest =>
      match matrix_scan rx s with
      | Some (_, s') => run rest s'
      | None => None
      end
  end.

(** A byte delivered without transport error. *)
Definition byte_ok (code : Z) : ps2_rx := Rx code 0.

(** The state a caller sees after [m]: [None] if [m] fails. *)
Definition exec {A} (m : M A) (s : machine) : option machine :=
  match m s with
  | Some (_, s') => Some s'
  | None => None
  end.

Definition eval {A} (m : M A) (s : machine) : option A :=
  match m s with
  | Some (a, _) => Some a
  | None => None
  end.

(** ** The thumbstick (THUMBSTICK_ENABLE) *)

Definition STICK_MAX : Z := 1023.
Definition STICK_MIN : Z := 0.
Definition STICK_CENTER : Z := 512.
Definition STICK_SLOP : Z := 64.

(** The result [z] of an operation on [int].  Signed overflow is undefined,
    and [int] has 16 bits on the AVR target and at least 16 everywhere: a
    result that does not fit 16 bits is the failure [None], so that what is
    computed here is what every target computes.  A value that passed
    [int_val] is stored in an [int16_t] unchanged. *)
Definition int_val (z : Z) : option Z :=
  if (-32768 <=? z) && (z <=? 32767) then Some z else None.

(** Conversion to [int8_t] and to [int16_t]. *)
Definition to_int8 (z : Z) : Z := (z + 128) mod 256 - 128.
Definition to_int16 (z : Z) : Z := (z + 32768) mod 65536 - 32768.

(** [map_value(v)].  [mk_max_speed] is the [uint8_t] global of mousekey.h,
    taken as an argument. *)
Definition map_value (mk_max_speed : Z) (v : Z) : option Z :=
  v ← int_val (v - STICK_CENTER);
  sv ← (if v <? 0 then v' ← int_val (- v); Some (-1, v') else Some (1, v));
  let sign := fst sv in
  let v := snd sv in
  if v <? STICK_SLOP then Some 0
  else
    p ← int_val (sign * mk_max_speed);
    p ← int_val (p * v);
    Some (to_int8 (Z.quot p 320)).

(** The statics of [process_thumbstick]. *)
Record stick : Type := Stick {
  last_x : Z;
  last_y : Z
}.

(** [thumbstick_read]: [adc] is what [ADC_GetChannelReading] returns for the
    channel, a [uint16_t] that becomes the [int16_t] argument of
    [map_value]; the result is the triple of [*value], [*last_value] and
    [*dirty] after the call. *)
Definition thumbstick_read (mk_max_speed adc last_value : Z) (dirty : bool)
  : option (Z * Z * bool) :=
  value ← map_value mk_max_speed (to_int16 adc);
  if negb (value =? last_value) then Some (value, value, true)
  else Some (value, last_value, dirty).

(** [process_thumbstick]: [adc7] and [adc6] are the readings of the two
    channels.  The result holds the arguments [x] and [-y] of
    [mousekey_set_xyvh(x, -y, 0, 0)] when the report is sent by
    [mousekey_send()], and the statics after the call. *)
Definition process_thumbstick (mk_max_speed adc7 adc6 : Z) (st : stick)
  : option (option (Z * Z) * stick) :=
  rx ← thumbstick_read mk_max_speed adc7 (last_x st) false;
  let x := fst (fst rx) in
  ry ← thumbstick_read mk_max_speed adc6 (last_y st) (snd rx);
  let y := fst (fst ry) in
  let dirty := snd ry in
  Some (if dirty || negb (x =? 0) || negb (y =? 0) then Some (x, - y) else None,
        Stick (snd (fst rx)) (snd (fst ry))).

(** Successive calls of [process_thumbstick], one pair of readings each; the
    reports come out in order. *)
Fixpoint run_stick (mk_max_speed : Z) (readings : list (Z * Z)) (st : stick)
  : option (list (option (Z * Z)) * stick) :=
  match readings with
  | [] => Some ([], st)
  | (adc7, adc6) :: rest =>
      r ← process_thumbstick mk_max_speed adc7 adc6 st;
      rs ← run_stick mk_max_speed rest (snd r);
      Some (fst r :: fst rs, snd rs)
  end.

(** A reading of the 10-bit converter. *)
Definition is_reading (adc : Z) : Prop := STICK_MIN <= adc <= STICK_MAX.

(** A reading closer to the centre than STICK_SLOP. *)
Definition in_dead_zone (adc : Z) : Prop := Z.abs (adc - STICK_CENTER) < STICK_SLOP.

(** ** The extra buttons (EXTRA_BUTTONS_ENABLE) *)

(** The value this file gives DEBOUNCE when nothing else defines it. *)
Definition DEBOUNCE : Z := 5.

(** [read_buttons()].  The two pin registers are read from the hardware and
    the bit numbers come from config.h; all four are arguments here. *)
Definition read_buttons
  (BUTTON_ONE_PIN BUTTON_ONE_DATA_BIT BUTTON_TWO_PIN BUTTON_TWO_DATA_BIT : Z) : Z :=
  Z.lor (if negb (Z.land BUTTON_ONE_PIN (Z.shiftl 1 BUTTON_ONE_DATA_BIT) =? 0)
         then 0 else Z.shiftl 1 0)
        (if negb (Z.land BUTTON_TWO_PIN (Z.shiftl 1 BUTTON_TWO_DATA_BIT) =? 0)
         then 0 else Z.shiftl 1 1).

(** The statics of the debouncer. *)
Record button_state : Type := Buttons {
  buttons : Z;
  buttons_debouncing : Z;
  debouncing : bool;
  debouncing_time : Z
}.

(** What the hardware yields on one tick: the value of [read_buttons()],
    that of [timer_read()], and that of [timer_elapsed(debouncing_time)]. *)
Record hw_in : Type := Hw {
  hw_buttons : Z;
  hw_timer : Z;
  hw_elapsed : Z
}.

(** The block of [matrix_scan] under EXTRA_BUTTONS_ENABLE. *)
Definition scan_buttons (h : hw_in) (b : button_state) : M button_state :=
  let btns := hw_buttons h in
  let b := if negb (buttons_debouncing b =? btns)
           then Buttons (buttons b) btns true (hw_timer h)
           else b in
  if debouncing b && (DEBOUNCE <? hw_elapsed h) then
    let b := Buttons (buttons_debouncing b) (buttons_debouncing b) false
                     (debouncing_time b) in
    (if negb (Z.land (buttons b) (Z.shiftl 1 0) =? 0)
     then matrix_make 0x08 else matrix_break 0x08) ;;;
    (if negb (Z.land (buttons b) (Z.shiftl 1 1) =? 0)
     then matrix_make 0x10 else matrix_break 0x10) ;;;
    ret b
  else ret b.

(** [matrix_scan] as built with EXTRA_BUTTONS_ENABLE: the decoder tick, then
    the buttons. *)
Definition matrix_scan_with_buttons (rx : ps2_rx) (h : hw_in) (b : button_state)
  : M (Z * button_state) :=
  set_is_modified false ;;;
  pseudo_break ;;;
  let code := rx_code rx in
  (if rx_error rx =? 0 then scan_switch code else ret tt) ;;;
  b' <- scan_buttons h b ;;
  ret (1, b').

(** Successive ticks of the build with EXTRA_BUTTONS_ENABLE. *)
Fixpoint run_with_buttons (ticks : list (ps2_rx * hw_in)) (b : button_state)
  (s : machine) : option (button_state * machine) :=
  match ticks with
  | [] => Some (b, s)
  | (rx, h) :: rest =>
      match matrix_scan_with_buttons rx h b s with
      | Some ((_, b'), s') => run_with_buttons rest b' s'
      | None => None
      end
  end.

(** The debouncer once the buttons are sampled: the first [if] of the
    block. *)
Definition sampled (h : hw_in) (b : button_state) : button_state :=
  if negb (buttons_debouncing b =? hw_buttons h)
  then Buttons (buttons b) (hw_buttons h) true (hw_timer h)
  else b.

(** ** Vocabulary of the statements *)

(** A machine whose [matrix] has the declared number of rows. *)
Definition wf (s : machine) : Prop := length (matrix s) = MATRIX_ROWS.

(** A value of type [uint8_t]. *)
Definition is_byte (code : Z) : Prop := 0 <= code < 256.

Definition row_of (m : list Z) (code : Z) : Z :=
  default 0 (m !! Z.to_nat (ROW code)).

(** The bit of the cell that [code] addresses. *)
Definition key_on (m : list Z) (code : Z) : bool :=
  Z.testbit (row_of m code) (COL code).

Definition set_key (code : Z) (m : list Z) : list Z :=
  if key_on m code then m
  else <[Z.to_nat (ROW code) :=
           to_uint8 (Z.lor (row_of m code) (Z.shiftl 1 (COL code)))]> m.

Definition clr_key (code : Z) (m : list Z) : list Z :=
  if key_on m code
  then <[Z.to_nat (ROW code) :=
           to_uint8 (Z.land (row_of m code) (Z.lnot (Z.shiftl 1 (COL code))))]> m
  else m.

(** The machine once [is_modified] is reset and the pseudo break is done. *)
Definition after_pseudo_break (s : machine) : machine :=
  Machine (clr_key PAUSE (matrix s)) (key_on (matrix s) PAUSE) (state s) (calls s).

(** [m] returns, and the matrix it leaves satisfies [I], whenever the matrix
    it starts from does. *)
Definition keeps (I : list Z -> Prop) {A} (m : M A) : Prop :=
  forall s, I (matrix s) -> exists a s', m s = Some (a, s') /\ I (matrix s').

(** The bytes the idle state reserves: the three prefixes and the overrun
    sentinel. *)
Definition reserved (c : Z) : bool :=
  (c =? 0xE0) || (c =? 0xF0) || (c =? 0xE1) || (c =? 0x00).

(** Recovery from a protocol violation: after the byte [b] is delivered to
    the machine [s] the matrix is all zero, [clear_keyboard] was called once,
    and the decoder is in state [st']. *)
Definition recovers (b : Z) (s : machine) (st' : scan_state) : Prop :=
  exists s',
    run [byte_ok b] s = Some s' /\
    matrix s' = replicate MATRIX_ROWS 0 /\
    calls s' = calls s ++ [Clear_keyboard] /\
    state s' = st'.

(** The bytes from 0x80 up that a state handles by a case label of its own,
    without clearing and returning to idle. *)
Definition own_case (st : scan_state) (b : Z) : bool :=
  match st with
  | INIT => (b =? 0xE0) || (b =? 0xF0) || (b =? 0xE1) || (b =? 0x83)
            || (b =? 0x84) || (b =? 0xAA) || (b =? 0xFC)
  | F0 => (b =? 0x83) || (b =? 0x84) || (b =? 0xF0)
  | _ => false
  end.

(** A machine in the idle state with the key 0x1C held down. *)
Definition idle_with_1C : machine :=
  Machine (<[3%nat := 0x10]> (replicate MATRIX_ROWS 0)) false INIT [].

(** The idle machine right after the key 0x1C went down. *)
Definition after_make_1C : machine :=
  Machine (matrix idle_with_1C) true INIT [].

(** All 256 cells pressed. *)
Definition all_pressed : machine :=
  Machine (replicate MATRIX_ROWS 0xFF) false INIT [].

Definition pause_sequence : list Z :=
  [0xE1; 0x14; 0x77; 0xE1; 0xF0; 0x14; 0xF0; 0x77].

(** The cells of the matrix, row by row. *)
Definition coordinates : list (Z * Z) :=
  flat_map (fun row => map (fun col => (Z.of_nat row, Z.of_nat col)) (seq 0 8))
           (seq 0 MATRIX_ROWS).

Definition is_on_at (s : machine) (rc : Z * Z) : bool :=
  match eval (matrix_is_on (fst rc) (snd rc)) s with
  | Some on => on
  | None => false
  end.

(** The number of (row, column) pairs for which [matrix_is_on] is true. *)
Definition keys_on (s : machine) : Z :=
  Z.of_nat (length (List.filter (is_on_at s) coordinates)).

Definition sum_bitpop (l : list Z) : Z :=
  foldr (fun r acc => bitpop r + acc) 0 l.

(** ** Vocabulary of the further properties *)

(** What a caller reads at the cell that [code] addresses. *)
Definition is_on_code (code : Z) (s : machine) : option bool :=
  eval (matrix_is_on (ROW code) (COL code)) s.

(** Every cell other than the pause cell reads in [s'] as it does in [s]. *)
Definition same_keys_but_pause (s s' : machine) : Prop :=
  forall code, is_byte code -> code <> PAUSE ->
    is_on_code code s' = is_on_code code s.

(** The control'd pause sequence of the comment above [matrix_scan]. *)
Definition ctrl_pause_sequence : list Z := [0xE0; 0x7E; 0xE0; 0xF0; 0x7E].

(** The shift prefix and postfix codes "to be ignored". *)
Definition absorbed_sequences : list (list Z) :=
  [[0xE0; 0x12]; [0xE0; 0x59]; [0xE0; 0xF0; 0x12]; [0xE0; 0xF0; 0x59]].

(** The one byte that lets a state of the two pause chains go on. *)
Definition expected (st : scan_state) : option Z :=
  match st with
  | E1 => Some 0x14
  | E1_14 => Some 0x77
  | E1_14_77 => Some 0xE1
  | E1_14_77_E1 => Some 0xF0
  | E1_14_77_E1_F0 => Some 0x14
  | E1_14_77_E1_F0_14 => Some 0xF0
  | E1_14_77_E1_F0_14_F0 => Some 0x77
  | E0_7E => Some 0xE0
  | E0_7E_E0 => Some 0xF0
  | E0_7E_E0_F0 => Some 0x7E
  | _ => None
  end.

(** Every row holds a value of type [uint8_t]. *)
Definition rows_are_bytes (m : list Z) : Prop := Forall is_byte m.

(** The idle machine with button one held and committed: cell 0x08
    pressed. *)
Definition idle_with_button_one : machine :=
  Machine (<[1%nat := 0x01]> (replicate MATRIX_ROWS 0)) false INIT [].

(** The states the program can be in, in either build: the statics as
    initialised, and from there any tick of [matrix_scan], any run of the
    block of the extra buttons, and any call of [matrix_clear] or
    [matrix_init]. *)
Inductive reachable : machine -> Prop :=
  | reach_power_on : reachable power_on
  | reach_scan rx s r s' :
      reachable s -> is_byte (rx_code rx) ->
      matrix_scan rx s = Some (r, s') -> reachable s'
  | reach_buttons h b s b' s' :
      reachable s -> scan_buttons h b s = Some (b', s') -> reachable s'
  | reach_clear s u s' :
      reachable s -> matrix_clear s = Some (u, s') -> reachable s'
  | reach_init s u s' :
      reachable s -> matrix_init s = Some (u, s') -> reachable s'.

(** * Proofs *)

(** ** Arithmetic of coordinates *)

Lemma ROW_div code : ROW code = code / 8.
Proof. unfold ROW. rewrite Z.shiftr_div_pow2 by lia. reflexivity. Qed.

Lemma COL_mod code : COL code = code mod 8.
Proof. unfold COL. change 0x07 with (Z.ones 3). rewrite Z.land_ones by lia. reflexivity. Qed.

Lemma COL_range code : 0 <= COL code < 8.
Proof. rewrite COL_mod. apply Z.mod_pos_bound. lia. Qed.

Lemma ROW_range code : is_byte code -> 0 <= ROW code <= 31.
Proof.
  unfold is_byte. intros Hc. rewrite ROW_div. split.
  - apply Z.div_pos; lia.
  - apply Z.lt_succ_r. apply Z.div_lt_upper_bound; lia.
Qed.

Lemma ROW_index code : is_byte code -> (Z.to_nat (ROW code) < MATRIX_ROWS)%nat.
Proof. intros Hc. pose proof (ROW_range code Hc). unfold MATRIX_ROWS. lia. Qed.

Lemma ROW_COL_inj c d : ROW c = ROW d -> COL c = COL d -> c = d.
Proof.
  rewrite !ROW_div, !COL_mod. intros Hr Hm.
  rewrite (Z.div_mod c 8), (Z.div_mod d 8) by lia. congruence.
Qed.

Lemma lor_0x80 c : 0 <= c < 0x80 -> Z.lor c 0x80 = c + 0x80.
Proof.
  intros Hc. symmetry. apply Z.add_nocarry_lor.
  apply Z.bits_inj'. intros n Hn. rewrite Z.land_spec, Z.bits_0.
  change 0x80 with (2 ^ 7). rewrite Z.pow2_bits_eqb by lia.
  destruct (Z.eqb_spec 7 n) as [<- | Hne]; [|apply andb_false_r].
  rewrite andb_true_r. apply Z.testbit_false; [lia|].
  rewrite Z.div_small by lia. reflexivity.
Qed.

(** ** Bits of a row *)

Lemma mask_test r col :
  0 <= col -> negb (Z.land r (Z.shiftl 1 col) =? 0) = Z.testbit r col.
Proof.
  intros Hcol. rewrite Z.shiftl_1_l.
  destruct (Z.testbit r col) eqn:Hb.
  - destruct (Z.eqb_spec (Z.land r (2 ^ col)) 0) as [Hz | Hz]; [|reflexivity].
    assert (Z.testbit (Z.land r (2 ^ col)) col = true) as Ht.
    { rewrite Z.land_spec, Hb, Z.pow2_bits_true by lia. reflexivity. }
    rewrite Hz, Z.bits_0 in Ht. discriminate.
  - assert (Z.land r (2 ^ col) = 0) as ->; [|reflexivity].
    apply Z.bits_inj'. intros n Hn. rewrite Z.land_spec, Z.bits_0.
    rewrite Z.pow2_bits_eqb by lia.
    destruct (Z.eqb_spec col n) as [<- | Hne].
    + rewrite Hb. reflexivity.
    + apply andb_false_r.
Qed.

Lemma testbit_set r col n :
  0 <= col < 8 -> 0 <= n < 8 ->
  Z.testbit (to_uint8 (Z.lor r (Z.shiftl 1 col))) n = Z.testbit r n || (col =? n).
Proof.
  intros Hcol Hn. unfold to_uint8. change 256 with (2 ^ 8).
  rewrite Z.mod_pow2_bits_low by lia.
  rewrite Z.lor_spec, Z.shiftl_1_l, Z.pow2_bits_eqb by lia. reflexivity.
Qed.

Lemma testbit_clr r col n :
  0 <= col < 8 -> 0 <= n < 8 ->
  Z.testbit (to_uint8 (Z.land r (Z.lnot (Z.shiftl 1 col)))) n
  = Z.testbit r n && negb (col =? n).
Proof.
  intros Hcol Hn. unfold to_uint8. change 256 with (2 ^ 8).
  rewrite Z.mod_pow2_bits_low by lia.
  rewrite Z.land_spec, Z.lnot_spec, Z.shiftl_1_l, Z.pow2_bits_eqb by lia.
  reflexivity.
Qed.

(** ** The matrix operations in terms of the views *)

Lemma lookup_row (m : list Z) code :
  length m = MATRIX_ROWS -> is_byte code ->
  m !! Z.to_nat (ROW code) = Some (row_of m code).
Proof.
  intros Hlen Hc. unfold row_of.
  destruct (lookup_lt_is_Some_2 m (Z.to_nat (ROW code))) as [r Hr].
  - rewrite Hlen. apply ROW_index, Hc.
  - rewrite Hr. reflexivity.
Qed.

Lemma matrix_read_row s code :
  wf s -> is_byte code ->
  matrix_read (ROW code) s = Some (row_of (matrix s) code, s).
Proof. intros Hwf Hc. unfold matrix_read. rewrite lookup_row by assumption. reflexivity. Qed.

Lemma matrix_is_on_key s code :
  wf s -> is_byte code ->
  matrix_is_on (ROW code) (COL code) s = Some (key_on (matrix s) code, s).
Proof.
  intros Hwf Hc. unfold matrix_is_on, bind, ret.
  rewrite matrix_read_row by assumption.
  rewrite mask_test by apply COL_range. reflexivity.
Qed.

Lemma matrix_make_eq s code :
  wf s -> is_byte code ->
  matrix_make code s
  = Some (tt, Machine (set_key code (matrix s))
                      (is_modified s || negb (key_on (matrix s) code))
                      (state s) (calls s)).
Proof.
  intros Hwf Hc. unfold matrix_make, bind at 1.
  rewrite matrix_is_on_key by assumption. unfold set_key.
  destruct (key_on (matrix s) code); simpl.
  - unfold ret. rewrite orb_false_r. destruct s; reflexivity.
  - unfold bind. rewrite matrix_read_row by assumption.
    unfold matrix_write. rewrite lookup_row by assumption.
    simpl. rewrite orb_true_r. reflexivity.
Qed.

Lemma matrix_break_eq s code :
  wf s -> is_byte code ->
  matrix_break code s
  = Some (tt, Machine (clr_key code (matrix s))
                      (is_modified s || key_on (matrix s) code)
                      (state s) (calls s)).
Proof.
  intros Hwf Hc. unfold matrix_break, bind at 1.
  rewrite matrix_is_on_key by assumption. unfold clr_key.
  destruct (key_on (matrix s) code); simpl.
  - unfold bind. rewrite matrix_read_row by assumption.
    unfold matrix_write. rewrite lookup_row by assumption.
    simpl. rewrite orb_true_r. reflexivity.
  - unfold ret. rewrite orb_false_r. destruct s; reflexivity.
Qed.

Lemma length_set_key code (m : list Z) : length (set_key code m) = length m.
Proof. unfold set_key. destruct (key_on m code); [reflexivity | apply length_insert]. Qed.

Lemma length_clr_key code (m : list Z) : length (clr_key code m) = length m.
Proof. unfold clr_key. destruct (key_on m code); [apply length_insert | reflexivity]. Qed.

Lemma same_cell c d : ROW c = ROW d -> (COL c =? COL d) = (c =? d).
Proof.
  intros Hr. destruct (Z.eqb_spec (COL c) (COL d)) as [Hcol | Hcol].
  - rewrite (ROW_COL_inj c d Hr Hcol). symmetry. apply Z.eqb_refl.
  - destruct (Z.eqb_spec c d) as [-> | _]; [contradiction | reflexivity].
Qed.

Lemma other_row c d : ROW c <> ROW d -> (c =? d) = false.
Proof. intros Hr. destruct (Z.eqb_spec c d) as [-> | _]; [contradiction | reflexivity]. Qed.

Lemma key_on_set_key (m : list Z) c d :
  length m = MATRIX_ROWS -> is_byte c -> is_byte d ->
  key_on (set_key c m) d = (c =? d) || key_on m d.
Proof.
  intros Hlen Hc Hd. unfold set_key.
  destruct (key_on m c) eqn:Hon.
  - destruct (Z.eqb_spec c d) as [<- | _]; [rewrite Hon|]; reflexivity.
  - unfold key_on at 1, row_of at 1.
    destruct (Z.eq_dec (ROW c) (ROW d)) as [Hr | Hr].
    + rewrite <- Hr, list_lookup_insert_eq by (rewrite Hlen; apply ROW_index, Hc).
      simpl. rewrite testbit_set by apply COL_range.
      rewrite (same_cell c d Hr), orb_comm. unfold key_on, row_of.
      rewrite Hr. reflexivity.
    + rewrite list_lookup_insert_ne.
      * rewrite (other_row c d Hr). reflexivity.
      * pose proof (ROW_range c Hc). pose proof (ROW_range d Hd). lia.
Qed.

Lemma key_on_clr_key (m : list Z) c d :
  length m = MATRIX_ROWS -> is_byte c -> is_byte d ->
  key_on (clr_key c m) d = negb (c =? d) && key_on m d.
Proof.
  intros Hlen Hc Hd. unfold clr_key.
  destruct (key_on m c) eqn:Hon.
  - unfold key_on at 1, row_of at 1.
    destruct (Z.eq_dec (ROW c) (ROW d)) as [Hr | Hr].
    + rewrite <- Hr, list_lookup_insert_eq by (rewrite Hlen; apply ROW_index, Hc).
      simpl. rewrite testbit_clr by apply COL_range.
      rewrite (same_cell c d Hr), andb_comm. unfold key_on, row_of.
      rewrite Hr. reflexivity.
    + rewrite list_lookup_insert_ne.
      * rewrite (other_row c d Hr). reflexivity.
      * pose proof (ROW_range c Hc). pose proof (ROW_range d Hd). lia.
  - destruct (Z.eqb_spec c d) as [<- | _]; [rewrite Hon|]; reflexivity.
Qed.

Lemma matrix_clear_loop_eq n : forall i s,
  0 <= i -> (Z.to_nat i + n)%nat = length (matrix s) ->
  take (Z.to_nat i) (matrix s) = replicate (Z.to_nat i) 0 ->
  matrix_clear_loop n i s
  = Some (tt, Machine (replicate (length (matrix s)) 0)
                      (is_modified s) (state s) (calls s)).
Proof.
  induction n as [| n IH]; intros i s Hi Hlen Hpre.
  - simpl. unfold ret. rewrite Nat.add_0_r in Hlen.
    rewrite <- Hlen, <- Hpre, Hlen, firstn_all. destruct s; reflexivity.
  - simpl. unfold bind, matrix_write.
    destruct (lookup_lt_is_Some_2 (matrix s) (Z.to_nat i)) as [r Hr]; [lia|].
    rewrite Hr. rewrite IH; simpl.
    + rewrite length_insert. reflexivity.
    + lia.
    + rewrite length_insert. lia.
    + replace (Z.to_nat (i + 1)) with (S (Z.to_nat i)) by lia.
      rewrite (take_S_r _ _ (to_uint8 0)).
      * rewrite take_insert_ge by lia. rewrite Hpre.
        change (to_uint8 0) with 0. rewrite <- replicate_S_end. reflexivity.
      * apply list_lookup_insert_eq. lia.
Qed.

Lemma matrix_clear_eq s :
  wf s ->
  matrix_clear s
  = Some (tt, Machine (replicate MATRIX_ROWS 0) (is_modified s) (state s) (calls s)).
Proof.
  intros Hwf. unfold matrix_clear. rewrite matrix_clear_loop_eq.
  - rewrite Hwf. reflexivity.
  - lia.
  - rewrite Hwf. reflexivity.
  - reflexivity.
Qed.

Lemma key_on_clear code : key_on (replicate MATRIX_ROWS 0) code = false.
Proof.
  unfold key_on, row_of.
  destruct (replicate MATRIX_ROWS 0 !! Z.to_nat (ROW code)) as [r|] eqn:Hr; simpl.
  - apply lookup_replicate in Hr as [-> _]. apply Z.bits_0.
  - apply Z.bits_0.
Qed.

Lemma set_key_on (m : list Z) c : key_on m c = true -> set_key c m = m.
Proof. intros Hon. unfold set_key. rewrite Hon. reflexivity. Qed.

Lemma clr_key_off (m : list Z) c : key_on m c = false -> clr_key c m = m.
Proof. intros Hoff. unfold clr_key. rewrite Hoff. reflexivity. Qed.

Lemma key_on_set_key_same (m : list Z) c :
  length m = MATRIX_ROWS -> is_byte c -> key_on (set_key c m) c = true.
Proof. intros Hlen Hc. rewrite key_on_set_key, Z.eqb_refl by assumption. reflexivity. Qed.

Lemma key_on_clr_key_same (m : list Z) c :
  length m = MATRIX_ROWS -> is_byte c -> key_on (clr_key c m) c = false.
Proof. intros Hlen Hc. rewrite key_on_clr_key, Z.eqb_refl by assumption. reflexivity. Qed.

(** ** One tick *)

Lemma PAUSE_byte : is_byte PAUSE.
Proof. unfold is_byte, PAUSE. lia. Qed.

Lemma pseudo_break_eq s :
  wf s ->
  pseudo_break s
  = Some (tt, Machine (clr_key PAUSE (matrix s))
                      (is_modified s || key_on (matrix s) PAUSE)
                      (state s) (calls s)).
Proof.
  intros Hwf. unfold pseudo_break, bind.
  rewrite matrix_is_on_key by (assumption || apply PAUSE_byte).
  destruct (key_on (matrix s) PAUSE) eqn:Hon.
  - rewrite matrix_break_eq, Hon by (assumption || apply PAUSE_byte). reflexivity.
  - unfold ret. rewrite clr_key_off, orb_false_r by assumption.
    destruct s; reflexivity.
Qed.

Lemma prologue_eq s :
  wf s ->
  (set_is_modified false ;;; pseudo_break) s = Some (tt, after_pseudo_break s).
Proof.
  intros Hwf. unfold bind, set_is_modified.
  rewrite pseudo_break_eq by exact Hwf. reflexivity.
Qed.

Lemma wf_after_pseudo_break s : wf s -> wf (after_pseudo_break s).
Proof. unfold wf. simpl. rewrite length_clr_key. trivial. Qed.

Lemma matrix_scan_eq rx s :
  wf s ->
  matrix_scan rx s
  = if negb (rx_error rx =? 0) then Some (1, after_pseudo_break s)
    else match scan_switch (rx_code rx) (after_pseudo_break s) with
         | Some (_, s') => Some (1, s')
         | None => None
         end.
Proof.
  intros Hwf. unfold matrix_scan. unfold bind at 1 2.
  unfold set_is_modified at 1.
  rewrite pseudo_break_eq by exact Hwf. cbn [is_modified matrix state calls orb].
  fold (after_pseudo_break s). unfold bind, ret.
  destruct (rx_error rx =? 0); cbn [negb]; [|reflexivity].
  destruct (scan_switch (rx_code rx) (after_pseudo_break s)) as [[[] s']|]; reflexivity.
Qed.

Lemma run_cons_ok c rest s :
  wf s ->
  run (byte_ok c :: rest) s
  = match scan_switch c (after_pseudo_break s) with
    | Some (_, s') => run rest s'
    | None => None
    end.
Proof.
  intros Hwf. cbn [run]. rewrite matrix_scan_eq by exact Hwf.
  cbn [byte_ok rx_error rx_code]. change (negb (0 =? 0)) with false. cbn iota.
  destruct (scan_switch c (after_pseudo_break s)) as [[[] s']|]; reflexivity.
Qed.

(** ** Properties of the matrix that every tick keeps *)

Ltac tests_to_Prop :=
  repeat match goal with
         | H : (_ =? _) = false |- _ => apply Z.eqb_neq in H
         | H : (_ =? _) = true |- _ => apply Z.eqb_eq in H
         | H : (_ <? _) = true |- _ => apply Z.ltb_lt in H
         | H : (_ <? _) = false |- _ => apply Z.ltb_ge in H
         end.

Section Invariant.

Variable I : list Z -> Prop.
Hypothesis I_length : forall m, I m -> length m = MATRIX_ROWS.
Hypothesis I_set : forall m c, I m -> is_byte c -> c <> 0 -> I (set_key c m).
Hypothesis I_clr : forall m c, I m -> is_byte c -> I (clr_key c m).
Hypothesis I_clear : I (replicate MATRIX_ROWS 0).

Lemma keeps_ret {A} (a : A) : keeps I (ret a).
Proof. intros s Hs. exists a, s. split; [reflexivity | exact Hs]. Qed.

Lemma keeps_bind {A B} (m : M A) (k : A -> M B) :
  keeps I m -> (forall a, keeps I (k a)) -> keeps I (bind m k).
Proof.
  intros Hm Hk s Hs. destruct (Hm s Hs) as (a & s1 & Em & H1).
  destruct (Hk a s1 H1) as (b & s2 & Ek & H2).
  exists b, s2. unfold bind. rewrite Em. split; assumption.
Qed.

Lemma keeps_set_state st : keeps I (set_state st).
Proof. intros s Hs. eexists _, _. split; [reflexivity | exact Hs]. Qed.

Lemma keeps_get_state : keeps I get_state.
Proof. intros s Hs. eexists _, _. split; [reflexivity | exact Hs]. Qed.

Lemma keeps_set_is_modified b : keeps I (set_is_modified b).
Proof. intros s Hs. eexists _, _. split; [reflexivity | exact Hs]. Qed.

Lemma keeps_call c : keeps I (call c).
Proof. intros s Hs. eexists _, _. split; [reflexivity | exact Hs]. Qed.

Lemma keeps_matrix_make code : is_byte code -> code <> 0 -> keeps I (matrix_make code).
Proof.
  intros Hc Hne s Hs. eexists _, _. split.
  - apply matrix_make_eq; [apply I_length, Hs | exact Hc].
  - apply I_set; assumption.
Qed.

Lemma keeps_matrix_break code : is_byte code -> keeps I (matrix_break code).
Proof.
  intros Hc s Hs. eexists _, _. split.
  - apply matrix_break_eq; [apply I_length, Hs | exact Hc].
  - apply I_clr; assumption.
Qed.

Lemma keeps_matrix_clear : keeps I matrix_clear.
Proof.
  intros s Hs. eexists _, _. split.
  - apply matrix_clear_eq, I_length, Hs.
  - exact I_clear.
Qed.

Lemma keeps_matrix_is_on code : is_byte code -> keeps I (matrix_is_on (ROW code) (COL code)).
Proof.
  intros Hc s Hs. eexists _, _. split.
  - apply matrix_is_on_key; [apply I_length, Hs | exact Hc].
  - exact Hs.
Qed.

Lemma keeps_pseudo_break : keeps I pseudo_break.
Proof.
  apply keeps_bind; [apply keeps_matrix_is_on, PAUSE_byte|].
  intros [|]; [apply keeps_matrix_break, PAUSE_byte | apply keeps_ret].
Qed.

Ltac split_tests :=
  repeat match goal with
         | |- keeps I (if ?b then _ else _) => destruct b eqn:?
         | |- keeps I (bind (if ?b then _ else _) _) => destruct b eqn:?
         end.

Lemma keeps_scan_switch code : is_byte code -> keeps I (scan_switch code).
Proof.
  intros Hc. unfold scan_switch.
  apply keeps_bind; [apply keeps_get_state|].
  intros st. unfold clear_keyboard, led_set_host_keyboard_leds.
  destruct st; split_tests; tests_to_Prop;
    try (rewrite lor_0x80 by (unfold is_byte in Hc; lia));
    repeat first [ apply keeps_set_state | apply keeps_call
                 | apply keeps_matrix_clear | apply keeps_ret
                 | apply keeps_matrix_break | apply keeps_matrix_make
                 | apply keeps_bind; [|intros _] ];
    unfold is_byte, F7, PRINT_SCREEN, PAUSE in *; lia.
Qed.

Lemma keeps_matrix_scan rx : is_byte (rx_code rx) -> keeps I (matrix_scan rx).
Proof.
  intros Hc. unfold matrix_scan.
  apply keeps_bind; [apply keeps_set_is_modified | intros _].
  apply keeps_bind; [apply keeps_pseudo_break | intros _].
  apply keeps_bind; [| intros _; apply keeps_ret].
  destruct (rx_error rx =? 0); [apply keeps_scan_switch, Hc | apply keeps_ret].
Qed.

Lemma keeps_run rxs : Forall (fun rx => is_byte (rx_code rx)) rxs ->
  forall s, I (matrix s) -> exists s', run rxs s = Some s' /\ I (matrix s').
Proof.
  induction 1 as [| rx rxs Hrx _ IH]; intros s Hs.
  - exists s. split; [reflexivity | exact Hs].
  - destruct (keeps_matrix_scan rx Hrx s Hs) as (a & s1 & E1 & H1).
    destruct (IH s1 H1) as (s2 & E2 & H2).
    exists s2. cbn [run]. rewrite E1. split; assumption.
Qed.

End Invariant.

(** ** Stepping the decoder on known bytes *)

Ltac decide_tests :=
  repeat first
    [ rewrite (proj2 (Z.eqb_eq _ _)) by lia
    | rewrite (proj2 (Z.eqb_neq _ _)) by lia
    | rewrite (proj2 (Z.ltb_lt _ _)) by lia
    | rewrite (proj2 (Z.ltb_ge _ _)) by lia ];
  cbn [orb negb andb state matrix is_modified calls].

Ltac wf_tac :=
  unfold wf, after_pseudo_break in *; cbn [matrix] in *;
  repeat first [ rewrite length_set_key | rewrite length_clr_key
               | rewrite length_replicate ];
  first [ assumption | reflexivity ].

Ltac byte_tac :=
  first [ apply PAUSE_byte
        | unfold is_byte, F7, PRINT_SCREEN, PAUSE in *;
          rewrite ?lor_0x80 by lia; lia ].

(** Unfold the switch at a machine whose [state] is known. *)
Ltac open_switch :=
  unfold scan_switch, after_pseudo_break;
  unfold bind, get_state, set_state, ret, clear_keyboard,
    led_set_host_keyboard_leds, call;
  cbn [state matrix is_modified calls];
  decide_tests.

Ltac do_matrix_op :=
  first [ rewrite matrix_make_eq by (wf_tac || byte_tac)
        | rewrite matrix_break_eq by (wf_tac || byte_tac)
        | rewrite matrix_clear_eq by wf_tac ];
  cbn [state matrix is_modified calls].

(** One tick that delivers a byte without transport error. *)
Ltac tick :=
  rewrite run_cons_ok by wf_tac;
  open_switch; try do_matrix_op.

(** [matrix_init] on the freshly initialised statics changes nothing. *)
Example matrix_init_power_on : exec matrix_init power_on = Some power_on.
Proof. vm_compute. reflexivity. Qed.

Example scan_make_1C :
  eval (matrix_is_on (ROW 0x1C) (COL 0x1C)) <$> run [byte_ok 0x1C] power_on
  = Some (Some true).
Proof. vm_compute. reflexivity. Qed.

(** ** Plain keys *)

(** C4: a code [c] in [0x00, 0x7F] that is not a reserved prefix or sentinel
    byte, delivered in the idle state, makes [matrix_is_on (c>>3) (c&7)] true;
    delivering 0xF0 and then [c] afterwards makes it false again. *)
Theorem plain_make_then_break c s :
  wf s -> state s = INIT -> 0x00 <= c <= 0x7F -> reserved c = false ->
  exists s1 s2,
    run [byte_ok c] s = Some s1 /\
    eval (matrix_is_on (ROW c) (COL c)) s1 = Some true /\
    run [byte_ok 0xF0; byte_ok c] s1 = Some s2 /\
    eval (matrix_is_on (ROW c) (COL c)) s2 = Some false.
Proof.
  intros Hwf Hst Hc Hres. destruct s as [m md st cl]. cbn in Hst. subst st.
  unfold reserved in Hres. apply orb_false_elim in Hres as [_ Hne].
  apply Z.eqb_neq in Hne.
  eexists _, _. split; [|split; [|split]].
  - tick. reflexivity.
  - unfold eval. rewrite matrix_is_on_key by (wf_tac || byte_tac).
    cbn [matrix]. rewrite key_on_set_key_same by (wf_tac || byte_tac). reflexivity.
  - tick. tick. reflexivity.
  - unfold eval. rewrite matrix_is_on_key by (wf_tac || byte_tac).
    cbn [matrix]. rewrite key_on_clr_key_same by (wf_tac || byte_tac). reflexivity.
Qed.

Lemma plain_make_then_break_witness :
  exists s1 s2,
    run [byte_ok 0x1C] power_on = Some s1 /\
    eval (matrix_is_on (ROW 0x1C) (COL 0x1C)) s1 = Some true /\
    run [byte_ok 0xF0; byte_ok 0x1C] s1 = Some s2 /\
    eval (matrix_is_on (ROW 0x1C) (COL 0x1C)) s2 = Some false.
Proof.
  apply (plain_make_then_break 0x1C power_on);
    [reflexivity | reflexivity | lia | reflexivity].
Defined.

(** ** Extended keys *)

Lemma ROW_extended c : 0 <= c < 0x80 -> ROW (Z.lor c 0x80) = ROW c + 16.
Proof.
  intros Hc. rewrite lor_0x80, !ROW_div by exact Hc.
  change 0x80 with (16 * 8). apply Z.div_add. lia.
Qed.

(** C5: for [c < 0x80] other than 0x12, 0x59 and 0x7E, the bytes 0xE0 [c]
    delivered from idle make the cell of [c|0x80] true; that cell is not the
    cell of [c], which is left as it was; the bytes 0xE0 0xF0 [c] make the
    cell of [c|0x80] false again. *)
Theorem extended_make_then_break c s :
  wf s -> state s = INIT -> 0 <= c < 0x80 ->
  c <> 0x12 -> c <> 0x59 -> c <> 0x7E ->
  (ROW (Z.lor c 0x80), COL (Z.lor c 0x80)) <> (ROW c, COL c) /\
  exists s1 s2,
    run [byte_ok 0xE0; byte_ok c] s = Some s1 /\
    eval (matrix_is_on (ROW (Z.lor c 0x80)) (COL (Z.lor c 0x80))) s1 = Some true /\
    eval (matrix_is_on (ROW c) (COL c)) s1 = eval (matrix_is_on (ROW c) (COL c)) s /\
    run [byte_ok 0xE0; byte_ok 0xF0; byte_ok c] s1 = Some s2 /\
    eval (matrix_is_on (ROW (Z.lor c 0x80)) (COL (Z.lor c 0x80))) s2 = Some false.
Proof.
  intros Hwf Hst Hc H12 H59 H7E. destruct s as [m md st cl]. cbn in Hst. subst st.
  split.
  - intros Heq. injection Heq as Hrow _. rewrite ROW_extended in Hrow by exact Hc. lia.
  - eexists _, _. split; [|split; [|split; [|split]]].
    + tick. tick. reflexivity.
    + unfold eval. rewrite matrix_is_on_key by (wf_tac || byte_tac).
      cbn [matrix]. rewrite key_on_set_key_same by (wf_tac || byte_tac). reflexivity.
    + unfold eval. rewrite !matrix_is_on_key by (wf_tac || byte_tac).
      cbn [matrix].
      rewrite key_on_set_key, !key_on_clr_key by (wf_tac || byte_tac).
      rewrite lor_0x80 by exact Hc. unfold PAUSE. decide_tests. reflexivity.
    + tick. tick. tick. reflexivity.
    + unfold eval. rewrite matrix_is_on_key by (wf_tac || byte_tac).
      cbn [matrix]. rewrite key_on_clr_key_same by (wf_tac || byte_tac). reflexivity.
Qed.

Lemma extended_make_then_break_witness :
  (ROW (Z.lor 0x75 0x80), COL (Z.lor 0x75 0x80)) <> (ROW 0x75, COL 0x75) /\
  exists s1 s2,
    run [byte_ok 0xE0; byte_ok 0x75] power_on = Some s1 /\
    eval (matrix_is_on (ROW (Z.lor 0x75 0x80)) (COL (Z.lor 0x75 0x80))) s1 = Some true /\
    eval (matrix_is_on (ROW 0x75) (COL 0x75)) s1
      = eval (matrix_is_on (ROW 0x75) (COL 0x75)) power_on /\
    run [byte_ok 0xE0; byte_ok 0xF0; byte_ok 0x75] s1 = Some s2 /\
    eval (matrix_is_on (ROW (Z.lor 0x75 0x80)) (COL (Z.lor 0x75 0x80))) s2 = Some false.
Proof.
  apply (extended_make_then_break 0x75 power_on);
    [reflexivity | reflexivity | lia | lia | lia | lia].
Defined.

(** ** Idempotence *)

Lemma exec_matrix_make s code :
  wf s -> is_byte code ->
  exec (matrix_make code) s
  = Some (Machine (set_key code (matrix s))
                  (is_modified s || negb (key_on (matrix s) code))
                  (state s) (calls s)).
Proof. intros Hwf Hc. unfold exec. rewrite matrix_make_eq by assumption. reflexivity. Qed.

Lemma exec_matrix_break s code :
  wf s -> is_byte code ->
  exec (matrix_break code) s
  = Some (Machine (clr_key code (matrix s))
                  (is_modified s || key_on (matrix s) code)
                  (state s) (calls s)).
Proof. intros Hwf Hc. unfold exec. rewrite matrix_break_eq by assumption. reflexivity. Qed.

(** C6: [matrix_make] and [matrix_break] are idempotent: a second call with
    the same code leaves the machine as the first call left it; and a plain
    make byte delivered twice in a row leaves the matrix as delivering it
    once does. *)
Theorem make_break_idempotent code s :
  wf s -> is_byte code ->
  (exists s1, exec (matrix_make code) s = Some s1 /\
              exec (matrix_make code) s1 = Some s1) /\
  (exists s1, exec (matrix_break code) s = Some s1 /\
              exec (matrix_break code) s1 = Some s1) /\
  (state s = INIT -> 0 < code < 0x80 ->
   exists s1 s2, run [byte_ok code] s = Some s1 /\
                 run [byte_ok code; byte_ok code] s = Some s2 /\
                 matrix s2 = matrix s1).
Proof.
  intros Hwf Hc. split; [|split].
  - eexists. split; [apply exec_matrix_make; assumption|].
    rewrite exec_matrix_make by (wf_tac || assumption). cbn [matrix is_modified state calls].
    rewrite key_on_set_key_same by assumption.
    rewrite set_key_on by (apply key_on_set_key_same; assumption).
    rewrite orb_false_r. reflexivity.
  - eexists. split; [apply exec_matrix_break; assumption|].
    rewrite exec_matrix_break by (wf_tac || assumption). cbn [matrix is_modified state calls].
    rewrite key_on_clr_key_same by assumption.
    rewrite clr_key_off by (apply key_on_clr_key_same; assumption).
    rewrite orb_false_r. reflexivity.
  - intros Hst Hplain. destruct s as [m md st cl]. cbn in Hst. subst st.
    eexists _, _. split; [|split].
    + tick. reflexivity.
    + tick. tick. reflexivity.
    + cbn [matrix].
      assert (key_on (set_key code (clr_key PAUSE m)) PAUSE = false) as Hoff.
      { rewrite key_on_set_key, key_on_clr_key_same by (wf_tac || byte_tac).
        unfold PAUSE. decide_tests. reflexivity. }
      rewrite (clr_key_off _ PAUSE Hoff).
      apply set_key_on, key_on_set_key_same; wf_tac || byte_tac.
Qed.

Lemma make_break_idempotent_witness :
  (exists s1, exec (matrix_make 0x1C) power_on = Some s1 /\
              exec (matrix_make 0x1C) s1 = Some s1) /\
  (exists s1, exec (matrix_break 0x1C) power_on = Some s1 /\
              exec (matrix_break 0x1C) s1 = Some s1) /\
  (exists s1 s2, run [byte_ok 0x1C] power_on = Some s1 /\
                 run [byte_ok 0x1C; byte_ok 0x1C] power_on = Some s2 /\
                 matrix s2 = matrix s1).
Proof.
  destruct (make_break_idempotent 0x1C power_on) as (Hmake & Hbreak & Hrun);
    [reflexivity | unfold is_byte; lia |].
  split; [exact Hmake | split; [exact Hbreak |]].
  apply Hrun; [reflexivity | lia].
Defined.

(** ** Transport errors *)

(** C8: when [ps2_error] is raised beside the received byte, the byte is not
    interpreted.  The tick is the same as its prologue alone (the reset of
    [is_modified] and the pseudo break): the decoder state is the one before
    the tick, no collaborator is called, every cell other than the pause cell
    is as before, and the outcome does not depend on the byte. *)
Theorem transport_error_discards_byte rx s :
  wf s -> rx_error rx <> 0 ->
  exists s',
    exec (matrix_scan rx) s = Some s' /\
    exec (set_is_modified false ;;; pseudo_break) s = Some s' /\
    state s' = state s /\
    calls s' = calls s /\
    (forall code, is_byte code -> code <> PAUSE ->
       eval (matrix_is_on (ROW code) (COL code)) s'
       = eval (matrix_is_on (ROW code) (COL code)) s) /\
    (forall code', exec (matrix_scan (Rx code' (rx_error rx))) s = Some s').
Proof.
  intros Hwf Herr. exists (after_pseudo_break s).
  assert (forall code', exec (matrix_scan (Rx code' (rx_error rx))) s
                        = Some (after_pseudo_break s)) as Hany.
  { intros code'. unfold exec. rewrite matrix_scan_eq by exact Hwf.
    cbn [rx_error]. rewrite (proj2 (Z.eqb_neq _ _) Herr). reflexivity. }
  split; [|split; [|split; [|split; [|split]]]].
  - destruct rx as [code err]. apply Hany.
  - unfold exec. rewrite prologue_eq by exact Hwf. reflexivity.
  - reflexivity.
  - reflexivity.
  - intros code Hc Hne. unfold eval.
    rewrite !matrix_is_on_key by (assumption || apply wf_after_pseudo_break, Hwf).
    cbn [after_pseudo_break matrix].
    rewrite key_on_clr_key by (assumption || apply PAUSE_byte).
    rewrite (proj2 (Z.eqb_neq PAUSE code)) by congruence. reflexivity.
  - exact Hany.
Qed.

Lemma transport_error_discards_byte_witness :
  exists s',
    exec (matrix_scan (Rx 0x1C 1)) power_on = Some s' /\
    exec (set_is_modified false ;;; pseudo_break) power_on = Some s' /\
    state s' = state power_on /\
    calls s' = calls power_on /\
    (forall code, is_byte code -> code <> PAUSE ->
       eval (matrix_is_on (ROW code) (COL code)) s'
       = eval (matrix_is_on (ROW code) (COL code)) power_on) /\
    (forall code', exec (matrix_scan (Rx code' 1)) power_on = Some s').
Proof.
  apply (transport_error_discards_byte (Rx 0x1C 1) power_on); [reflexivity | cbn; lia].
Defined.

(** ** Array bounds *)

(** C9: for an 8-bit code the row index [code>>3] is at most 31, below
    MATRIX_ROWS = 32; on a matrix of that size [matrix_make], [matrix_break]
    and [matrix_clear] never index outside the array, and neither does a
    tick of [matrix_scan] on any received byte, with or without a transport
    error. *)
Theorem coordinates_in_bounds code s :
  is_byte code -> wf s ->
  0 <= ROW code <= 31 /\
  (Z.to_nat (ROW code) < MATRIX_ROWS)%nat /\
  (exists s', exec (matrix_make code) s = Some s' /\ wf s') /\
  (exists s', exec (matrix_break code) s = Some s' /\ wf s') /\
  (exists s', exec matrix_clear s = Some s' /\ wf s') /\
  (forall err, exists s', exec (matrix_scan (Rx code err)) s = Some s' /\ wf s').
Proof.
  intros Hc Hwf. split; [apply ROW_range, Hc | split; [apply ROW_index, Hc |]].
  split; [|split; [|split]].
  - eexists. split; [apply exec_matrix_make; assumption | wf_tac].
  - eexists. split; [apply exec_matrix_break; assumption | wf_tac].
  - eexists. split; [unfold exec; rewrite matrix_clear_eq by exact Hwf; reflexivity | wf_tac].
  - intros err.
    destruct (keeps_matrix_scan (fun m => length m = MATRIX_ROWS)) with (rx := Rx code err) (s := s)
      as (a & s' & Escan & Hs').
    + trivial.
    + intros. rewrite length_set_key. assumption.
    + intros. rewrite length_clr_key. assumption.
    + apply length_replicate.
    + exact Hc.
    + exact Hwf.
    + exists s'. unfold exec. rewrite Escan. split; [reflexivity | exact Hs'].
Qed.

Lemma coordinates_in_bounds_witness :
  0 <= ROW 0xFF <= 31 /\
  (Z.to_nat (ROW 0xFF) < MATRIX_ROWS)%nat /\
  (exists s', exec (matrix_make 0xFF) power_on = Some s' /\ wf s') /\
  (exists s', exec (matrix_break 0xFF) power_on = Some s' /\ wf s') /\
  (exists s', exec matrix_clear power_on = Some s' /\ wf s') /\
  (forall err, exists s', exec (matrix_scan (Rx 0xFF err)) power_on = Some s' /\ wf s').
Proof.
  apply (coordinates_in_bounds 0xFF power_on); [unfold is_byte; lia | reflexivity].
Defined.

(** ** Protocol violations *)

(** C1, as stated, fails: 0xE0 is a byte >= 0x80, and delivered in the idle
    state it is the extended prefix; the matrix keeps its bits, no
    collaborator is called and the decoder moves to E0. *)
Lemma prefix_E0_does_not_recover :
  0x80 <= 0xE0 /\ state idle_with_1C = INIT /\
  ~ recovers 0xE0 idle_with_1C INIT /\
  run [byte_ok 0xE0] idle_with_1C
  = Some (Machine (matrix idle_with_1C) false E0 []).
Proof.
  split; [lia | split; [reflexivity | split; [| vm_compute; reflexivity]]].
  intros (s' & Hrun & _ & _ & Hst). vm_compute in Hrun.
  injection Hrun as <-. discriminate Hst.
Qed.

Ltac or_false H :=
  repeat match type of H with
         | (_ || _) = false => let H' := fresh H in apply orb_false_elim in H as [H H']
         end;
  repeat match goal with
         | H0 : (_ =? _) = false |- _ => apply Z.eqb_neq in H0
         end.

(** C1, amended: a byte [b >= 0x80] delivered in the idle, break-prefix or
    extended-break-prefix state, other than the bytes that state handles by
    a case of its own (idle: 0xE0, 0xF0, 0xE1, 0x83, 0x84, 0xAA, 0xFC;
    break-prefix: 0x83, 0x84, 0xF0), clears every row of the matrix, calls
    [clear_keyboard] once and leaves the decoder idle.  0xF0 in the
    break-prefix state clears and calls [clear_keyboard] once as well, but
    the decoder stays in the break-prefix state. *)
Theorem violation_recovers b s :
  wf s -> 0x80 <= b <= 0xFF ->
  state s = INIT \/ state s = F0 \/ state s = E0_F0 ->
  (own_case (state s) b = false -> recovers b s INIT) /\
  (state s = F0 -> b = 0xF0 -> recovers b s F0).
Proof.
  intros Hwf Hb Hst. destruct s as [m md st cl]. cbn [state] in *.
  split.
  - intros Hown. unfold recovers.
    destruct Hst as [-> | [-> | ->]]; cbn [own_case] in Hown; or_false Hown;
      eexists; (split; [tick; reflexivity | repeat split]).
  - intros -> ->. unfold recovers.
    eexists; (split; [tick; reflexivity | repeat split]).
Qed.

Lemma violation_recovers_witness :
  recovers 0x80 power_on INIT /\
  recovers 0xF0 (Machine (matrix idle_with_1C) false F0 []) F0.
Proof.
  split.
  - apply (violation_recovers 0x80 power_on);
      [reflexivity | lia | left; reflexivity | reflexivity].
  - apply (violation_recovers 0xF0 (Machine (matrix idle_with_1C) false F0 []));
      [reflexivity | lia | right; left; reflexivity | reflexivity | reflexivity].
Defined.

(** ** E0 F0 7E *)

(** C10: in the extended-break-prefix state the byte 0x7E takes the default
    branch: it is interpreted as [matrix_break] at [0x7E|0x80], which is the
    pause cell 0xFE, followed by the return to idle.  So 0xE0 0xF0 0x7E from
    idle leaves the pause key released, every other cell as it was and no
    collaborator called, whereas 0x7E straight after 0xE0 enters the
    control'd pause chain. *)
Theorem extended_break_7E_is_pause_break (m : list Z) md cl :
  length m = MATRIX_ROWS ->
  Z.lor 0x7E 0x80 = PAUSE /\
  exec (scan_switch 0x7E) (Machine m md E0_F0 cl)
    = exec (matrix_break PAUSE ;;; set_state INIT) (Machine m md E0_F0 cl) /\
  (exists s',
     run [byte_ok 0xE0; byte_ok 0xF0; byte_ok 0x7E] (Machine m md INIT cl) = Some s' /\
     eval (matrix_is_on (ROW PAUSE) (COL PAUSE)) s' = Some false /\
     state s' = INIT /\ calls s' = cl /\
     forall code, is_byte code -> code <> PAUSE ->
       eval (matrix_is_on (ROW code) (COL code)) s'
       = eval (matrix_is_on (ROW code) (COL code)) (Machine m md INIT cl)) /\
  (exists s',
     run [byte_ok 0xE0; byte_ok 0x7E] (Machine m md INIT cl) = Some s' /\
     state s' = E0_7E).
Proof.
  intros Hlen. split; [reflexivity | split; [|split]].
  - unfold exec. open_switch. change (Z.lor 0x7E 0x80) with PAUSE. reflexivity.
  - eexists. split; [tick; tick; tick; reflexivity|].
    change (Z.lor 0x7E 0x80) with PAUSE.
    split; [|split; [reflexivity | split; [reflexivity|]]].
    + unfold eval. rewrite matrix_is_on_key by (wf_tac || byte_tac).
      cbn [matrix]. rewrite key_on_clr_key_same by (wf_tac || byte_tac). reflexivity.
    + intros code Hc Hne. unfold eval.
      rewrite !matrix_is_on_key by (wf_tac || byte_tac). cbn [matrix].
      rewrite !key_on_clr_key by (wf_tac || byte_tac).
      rewrite (proj2 (Z.eqb_neq PAUSE code)) by congruence. reflexivity.
  - eexists. split; [tick; tick; reflexivity | reflexivity].
Qed.

Lemma extended_break_7E_is_pause_break_witness :
  Z.lor 0x7E 0x80 = PAUSE /\
  exec (scan_switch 0x7E) (Machine (replicate MATRIX_ROWS 0xFF) false E0_F0 [])
    = exec (matrix_break PAUSE ;;; set_state INIT)
           (Machine (replicate MATRIX_ROWS 0xFF) false E0_F0 []) /\
  (exists s',
     run [byte_ok 0xE0; byte_ok 0xF0; byte_ok 0x7E]
         (Machine (replicate MATRIX_ROWS 0xFF) false INIT []) = Some s' /\
     eval (matrix_is_on (ROW PAUSE) (COL PAUSE)) s' = Some false /\
     state s' = INIT /\ calls s' = [] /\
     forall code, is_byte code -> code <> PAUSE ->
       eval (matrix_is_on (ROW code) (COL code)) s'
       = eval (matrix_is_on (ROW code) (COL code))
              (Machine (replicate MATRIX_ROWS 0xFF) false INIT [])) /\
  (exists s',
     run [byte_ok 0xE0; byte_ok 0x7E]
         (Machine (replicate MATRIX_ROWS 0xFF) false INIT []) = Some s' /\
     state s' = E0_7E).
Proof.
  apply (extended_break_7E_is_pause_break (replicate MATRIX_ROWS 0xFF) false []).
  reflexivity.
Defined.

(** ** The pause key *)

Ltac split_ifs :=
  repeat match goal with
         | |- context [if ?b then _ else _] => destruct b eqn:?
         end.

(** A tick that starts in the idle state ends with the pause key released,
    whatever the transport yields. *)
Lemma idle_tick_releases_pause rx s :
  wf s -> state s = INIT -> is_byte (rx_code rx) ->
  exists s', exec (matrix_scan rx) s = Some s' /\
             eval (matrix_is_on (ROW PAUSE) (COL PAUSE)) s' = Some false.
Proof.
  intros Hwf Hst Hc. destruct s as [m md st cl]. cbn in Hst. subst st.
  destruct rx as [code err]. cbn [rx_code] in Hc.
  unfold exec. rewrite matrix_scan_eq by exact Hwf. cbn [rx_error rx_code].
  destruct (negb (err =? 0)).
  - eexists. split; [reflexivity|].
    unfold eval. rewrite matrix_is_on_key by (wf_tac || byte_tac).
    cbn [after_pseudo_break matrix].
    rewrite key_on_clr_key_same by (wf_tac || byte_tac). reflexivity.
  - open_switch. split_ifs; tests_to_Prop; try do_matrix_op;
      (eexists; split; [reflexivity|]);
      unfold eval; rewrite matrix_is_on_key by (wf_tac || byte_tac);
      cbn [matrix];
      rewrite ?key_on_set_key, ?key_on_clear, ?key_on_clr_key_same
        by (wf_tac || byte_tac);
      unfold PAUSE, F7, PRINT_SCREEN; decide_tests; reflexivity.
Qed.

(** Ticks on which the transport raises [ps2_error] leave the pause key
    released and the decoder where it was. *)
Lemma error_ticks_release_pause rxs : forall s,
  wf s -> rxs <> [] -> Forall (fun rx => rx_error rx <> 0) rxs ->
  exists s', run rxs s = Some s' /\
             eval (matrix_is_on (ROW PAUSE) (COL PAUSE)) s' = Some false /\
             state s' = state s.
Proof.
  induction rxs as [| rx rest IH]; intros s Hwf Hne Herr; [contradiction|].
  apply Forall_cons in Herr as [Hrx Hrest].
  cbn [run]. rewrite matrix_scan_eq by exact Hwf.
  rewrite (proj2 (Z.eqb_neq _ _) Hrx). cbn [negb].
  destruct rest as [| rx' rest'].
  - eexists. split; [reflexivity | split; [|reflexivity]].
    unfold eval. rewrite matrix_is_on_key by (wf_tac || byte_tac).
    cbn [after_pseudo_break matrix].
    rewrite key_on_clr_key_same by (wf_tac || byte_tac). reflexivity.
  - destruct (IH (after_pseudo_break s)) as (s' & Hrun & Hoff & Hst);
      [apply wf_after_pseudo_break, Hwf | discriminate | exact Hrest |].
    exists s'. split; [exact Hrun | split; [exact Hoff | exact Hst]].
Qed.

(** C2: the pause sequence E1 14 77 E1 F0 14 F0 77, delivered from idle one
    byte per tick, leaves the pause cell pressed after its last byte and not
    after any earlier one.  On the next call of [matrix_scan] the prologue,
    which runs before the byte is received, releases it, and it is released
    at the end of that tick whatever byte or transport error the tick
    brings; it stays released through any run of ticks on which the
    transport only raises [ps2_error]. *)
Theorem pause_is_a_one_tick_pulse s :
  wf s -> state s = INIT ->
  exists s8,
    run (map byte_ok pause_sequence) s = Some s8 /\
    eval (matrix_is_on (ROW PAUSE) (COL PAUSE)) s8 = Some true /\
    (forall k, (0 < k < 8)%nat ->
       exists sk, run (map byte_ok (take k pause_sequence)) s = Some sk /\
                  eval (matrix_is_on (ROW PAUSE) (COL PAUSE)) sk = Some false) /\
    (exists s9, exec (set_is_modified false ;;; pseudo_break) s8 = Some s9 /\
                eval (matrix_is_on (ROW PAUSE) (COL PAUSE)) s9 = Some false) /\
    (forall rx, is_byte (rx_code rx) ->
       exists s9, exec (matrix_scan rx) s8 = Some s9 /\
                  eval (matrix_is_on (ROW PAUSE) (COL PAUSE)) s9 = Some false) /\
    (forall rxs, rxs <> [] -> Forall (fun rx => rx_error rx <> 0) rxs ->
       exists s', run rxs s8 = Some s' /\
                  eval (matrix_is_on (ROW PAUSE) (COL PAUSE)) s' = Some false).
Proof.
  intros Hwf Hst. destruct s as [m md st cl]. cbn in Hst. subst st.
  eexists. split; [|split; [|split; [|split; [|split]]]].
  - cbn [map pause_sequence]. repeat tick. reflexivity.
  - unfold eval. rewrite matrix_is_on_key by (wf_tac || byte_tac).
    cbn [matrix]. rewrite key_on_set_key_same by (wf_tac || byte_tac). reflexivity.
  - intros k Hk.
    assert (k = 1 \/ k = 2 \/ k = 3 \/ k = 4 \/ k = 5 \/ k = 6 \/ k = 7)%nat
      as [-> | [-> | [-> | [-> | [-> | [-> | ->]]]]]] by lia;
      cbn [take map pause_sequence];
      (eexists; split; [repeat tick; reflexivity|]);
      unfold eval; rewrite matrix_is_on_key by (wf_tac || byte_tac);
      cbn [matrix]; rewrite key_on_clr_key_same by (wf_tac || byte_tac);
      reflexivity.
  - eexists. split; [unfold exec; rewrite prologue_eq by wf_tac; reflexivity|].
    unfold eval. rewrite matrix_is_on_key by (wf_tac || byte_tac).
    cbn [after_pseudo_break matrix].
    rewrite key_on_clr_key_same by (wf_tac || byte_tac). reflexivity.
  - intros rx Hrx. apply idle_tick_releases_pause; [wf_tac | reflexivity | exact Hrx].
  - intros rxs Hne Herr.
    edestruct (error_ticks_release_pause rxs) as (s' & Hrun & Hoff & _);
      [| exact Hne | exact Herr | exists s'; split; [exact Hrun | exact Hoff]].
    wf_tac.
Qed.

Lemma pause_is_a_one_tick_pulse_witness :
  exists s8,
    run (map byte_ok pause_sequence) power_on = Some s8 /\
    eval (matrix_is_on (ROW PAUSE) (COL PAUSE)) s8 = Some true /\
    (forall k, (0 < k < 8)%nat ->
       exists sk, run (map byte_ok (take k pause_sequence)) power_on = Some sk /\
                  eval (matrix_is_on (ROW PAUSE) (COL PAUSE)) sk = Some false) /\
    (exists s9, exec (set_is_modified false ;;; pseudo_break) s8 = Some s9 /\
                eval (matrix_is_on (ROW PAUSE) (COL PAUSE)) s9 = Some false) /\
    (forall rx, is_byte (rx_code rx) ->
       exists s9, exec (matrix_scan rx) s8 = Some s9 /\
                  eval (matrix_is_on (ROW PAUSE) (COL PAUSE)) s9 = Some false) /\
    (forall rxs, rxs <> [] -> Forall (fun rx => rx_error rx <> 0) rxs ->
       exists s', run rxs s8 = Some s' /\
                  eval (matrix_is_on (ROW PAUSE) (COL PAUSE)) s' = Some false).
Proof.
  apply (pause_is_a_one_tick_pulse power_on); reflexivity.
Defined.

(** ** Counting keys *)

Lemma bitpop_range r : 0 <= bitpop r <= 8.
Proof.
  unfold bitpop. split; [lia|].
  pose proof (List.filter_length_le (fun i => Z.testbit r (Z.of_nat i)) (seq 0 8)) as Hle.
  rewrite length_seq in Hle. lia.
Qed.

Lemma bitpop_bit0_off r : Z.testbit r 0 = false -> bitpop r <= 7.
Proof.
  intros Hoff. unfold bitpop. change (seq 0 8) with (0%nat :: seq 1 7).
  cbn [List.filter]. change (Z.of_nat 0) with 0. rewrite Hoff.
  pose proof (List.filter_length_le (fun i => Z.testbit r (Z.of_nat i)) (seq 1 7)) as Hle.
  rewrite length_seq in Hle. lia.
Qed.

Lemma sum_bitpop_range l : 0 <= sum_bitpop l <= 8 * Z.of_nat (length l).
Proof.
  induction l as [| r l IH]; cbn [sum_bitpop foldr length].
  - lia.
  - fold (sum_bitpop l). pose proof (bitpop_range r). lia.
Qed.

Lemma matrix_key_count_loop_eq n : forall i count s,
  0 <= i -> 0 <= count < 256 ->
  (Z.to_nat i + n <= length (matrix s))%nat ->
  matrix_key_count_loop n i count s
  = Some ((count + sum_bitpop (take n (drop (Z.to_nat i) (matrix s)))) mod 256, s).
Proof.
  induction n as [| n IH]; intros i count s Hi Hcount Hlen.
  - cbn [matrix_key_count_loop take sum_bitpop foldr]. unfold ret.
    rewrite Z.add_0_r, Z.mod_small by exact Hcount. reflexivity.
  - cbn [matrix_key_count_loop]. unfold bind, matrix_read.
    destruct (lookup_lt_is_Some_2 (matrix s) (Z.to_nat i)) as [r Hr]; [lia|].
    rewrite Hr. rewrite IH.
    + rewrite (drop_S _ _ _ Hr). cbn [take sum_bitpop foldr].
      fold (sum_bitpop (take n (drop (S (Z.to_nat i)) (matrix s)))).
      replace (Z.to_nat (i + 1)) with (S (Z.to_nat i)) by lia.
      unfold to_uint8. rewrite Z.add_mod_idemp_l by lia.
      rewrite Z.add_assoc. reflexivity.
    + lia.
    + unfold to_uint8. apply Z.mod_pos_bound. lia.
    + lia.
Qed.

Lemma matrix_key_count_eq s :
  wf s -> eval matrix_key_count s = Some (sum_bitpop (matrix s) mod 256).
Proof.
  intros Hwf. unfold eval, matrix_key_count.
  rewrite matrix_key_count_loop_eq by (unfold wf in Hwf; lia).
  cbn [Z.to_nat drop]. rewrite <- Hwf, firstn_all. reflexivity.
Qed.

Lemma length_filter_map {A B} (f : B -> bool) (g : A -> B) (l : list A) :
  length (List.filter f (map g l)) = length (List.filter (fun a => f (g a)) l).
Proof.
  induction l as [| a l IH]; cbn [map List.filter]; [reflexivity|].
  destruct (f (g a)); cbn [length]; rewrite IH; reflexivity.
Qed.

Lemma is_on_at_row s (row : nat) r (col : nat) :
  matrix s !! row = Some r ->
  is_on_at s (Z.of_nat row, Z.of_nat col) = Z.testbit r (Z.of_nat col).
Proof.
  intros Hr. unfold is_on_at, eval, matrix_is_on, bind, matrix_read, ret.
  cbn [fst snd]. rewrite Nat2Z.id, Hr. apply mask_test. lia.
Qed.

Lemma keys_on_rows s : forall (l : list Z) (k : nat),
  drop k (matrix s) = l ->
  Z.of_nat (length (List.filter (is_on_at s)
     (flat_map (fun row => map (fun col => (Z.of_nat row, Z.of_nat col)) (seq 0 8))
               (seq k (length l)))))
  = sum_bitpop l.
Proof.
  induction l as [| r l IH]; intros k Hdrop; [reflexivity|].
  assert (matrix s !! k = Some r) as Hr.
  { pose proof (lookup_drop (matrix s) k 0) as Hk.
    rewrite Hdrop, Nat.add_0_r in Hk. symmetry. exact Hk. }
  assert (drop (S k) (matrix s) = l) as Hrest.
  { replace (S k) with (k + 1)%nat by lia.
    rewrite <- drop_drop, Hdrop. reflexivity. }
  change (seq k (length (r :: l))) with (k :: seq (S k) (length l)).
  cbn [flat_map].
  rewrite List.filter_app, length_app, Nat2Z.inj_add, (IH (S k) Hrest).
  cbn [sum_bitpop foldr]. f_equal.
  rewrite length_filter_map. unfold bitpop. do 2 f_equal.
  apply List.filter_ext. intros col. apply is_on_at_row, Hr.
Qed.

Lemma keys_on_eq s : wf s -> keys_on s = sum_bitpop (matrix s).
Proof.
  intros Hwf. unfold keys_on, coordinates. rewrite <- Hwf.
  apply keys_on_rows. reflexivity.
Qed.

Lemma keys_on_cell0_off s :
  wf s -> key_on (matrix s) 0x00 = false -> keys_on s < 256.
Proof.
  intros Hwf Hoff. rewrite keys_on_eq by exact Hwf.
  unfold wf, MATRIX_ROWS in Hwf. destruct (matrix s) as [| r l]; [discriminate|].
  cbn [sum_bitpop foldr]. fold (sum_bitpop l).
  pose proof (bitpop_bit0_off r Hoff). pose proof (sum_bitpop_range l).
  cbn [length] in Hwf. lia.
Qed.

(** The decoder never presses cell 0: the byte 0x00 is the overrun sentinel. *)
Lemma cell0_stays_off rxs :
  Forall (fun rx => is_byte (rx_code rx)) rxs ->
  exists s, run rxs power_on = Some s /\ wf s /\ key_on (matrix s) 0x00 = false.
Proof.
  intros Hrxs.
  destruct (keeps_run (fun m => length m = MATRIX_ROWS /\ key_on m 0x00 = false))
    with (rxs := rxs) (s := power_on) as (s & Hrun & Hlen & Hoff).
  - intros m [Hlen _]. exact Hlen.
  - intros m c [Hlen Hoff] Hc Hne. split; [rewrite length_set_key; exact Hlen|].
    rewrite key_on_set_key by (assumption || unfold is_byte; lia).
    rewrite Hoff, (proj2 (Z.eqb_neq c 0) Hne). reflexivity.
  - intros m c [Hlen Hoff] Hc. split; [rewrite length_clr_key; exact Hlen|].
    rewrite key_on_clr_key by (assumption || unfold is_byte; lia).
    rewrite Hoff. apply andb_false_r.
  - split; [apply length_replicate | apply key_on_clear].
  - exact Hrxs.
  - split; [reflexivity | apply key_on_clear].
  - exists s. split; [exact Hrun | split; [exact Hlen | exact Hoff]].
Qed.

(** With every cell pressed, a matrix that no run of the program produces,
    [matrix_is_on] is true at 256 pairs and the [uint8_t] counter of
    [matrix_key_count] has wrapped to 0. *)
Lemma key_count_wraps_at_256 :
  wf all_pressed /\
  keys_on all_pressed = 256 /\
  eval matrix_key_count all_pressed = Some 0.
Proof. repeat split; vm_compute; reflexivity. Qed.

(** On any array of 32 rows [matrix_key_count] returns the number of pairs
    for which [matrix_is_on] is true, reduced modulo 256; the two are equal
    whenever fewer than 256 cells are pressed; right after [matrix_clear]
    both are 0. *)
Lemma key_count_is_keys_on_mod_256 s rxs :
  wf s -> Forall (fun rx => is_byte (rx_code rx)) rxs ->
  eval matrix_key_count s = Some (keys_on s mod 256) /\
  (keys_on s < 256 -> eval matrix_key_count s = Some (keys_on s)) /\
  (exists s', run rxs power_on = Some s' /\
              eval matrix_key_count s' = Some (keys_on s')) /\
  (exists s0, exec matrix_clear s = Some s0 /\
              keys_on s0 = 0 /\ eval matrix_key_count s0 = Some 0).
Proof.
  intros Hwf Hrxs.
  assert (forall t, wf t -> keys_on t < 256 ->
                    eval matrix_key_count t = Some (keys_on t)) as Hsmall.
  { intros t Ht Hlt. rewrite matrix_key_count_eq, <- keys_on_eq by exact Ht.
    rewrite Z.mod_small; [reflexivity|]. unfold keys_on in *. lia. }
  split; [|split; [|split]].
  - rewrite matrix_key_count_eq, keys_on_eq by exact Hwf. reflexivity.
  - apply Hsmall, Hwf.
  - destruct (cell0_stays_off rxs Hrxs) as (s' & Hrun & Hwf' & Hoff).
    exists s'. split; [exact Hrun|].
    apply Hsmall; [exact Hwf' | apply keys_on_cell0_off; assumption].
  - eexists. split; [unfold exec; rewrite matrix_clear_eq by exact Hwf; reflexivity|].
    split; vm_compute; reflexivity.
Qed.

Lemma key_count_is_keys_on_mod_256_witness :
  eval matrix_key_count all_pressed = Some (keys_on all_pressed mod 256) /\
  (keys_on all_pressed < 256 ->
   eval matrix_key_count all_pressed = Some (keys_on all_pressed)) /\
  (exists s', run [byte_ok 0x1C; Rx 0x00 1; byte_ok 0xE0; byte_ok 0x75] power_on = Some s' /\
              eval matrix_key_count s' = Some (keys_on s')) /\
  (exists s0, exec matrix_clear all_pressed = Some s0 /\
              keys_on s0 = 0 /\ eval matrix_key_count s0 = Some 0).
Proof.
  apply (key_count_is_keys_on_mod_256 all_pressed
           [byte_ok 0x1C; Rx 0x00 1; byte_ok 0xE0; byte_ok 0x75]).
  - reflexivity.
  - repeat constructor; cbn; lia.
Defined.

(** ** The modified flag *)

(** C3: the flag misses the full clear.  [matrix_make] and [matrix_break]
    raise [is_modified] when they change a bit; [matrix_clear] does not.
    With the key 0x1C held, the overrun byte 0x00 (and likewise the stray
    byte 0x80) zeroes the matrix, so the matrix changed during the tick, and
    [is_modified] is false when the tick ends. *)
Theorem clear_leaves_is_modified_false :
  run [byte_ok 0x1C] power_on = Some after_make_1C /\
  exec (matrix_scan (byte_ok 0x00)) after_make_1C
  = Some (Machine (replicate MATRIX_ROWS 0) false INIT [Clear_keyboard]) /\
  exec (matrix_scan (byte_ok 0x80)) after_make_1C
  = Some (Machine (replicate MATRIX_ROWS 0) false INIT [Clear_keyboard]) /\
  matrix after_make_1C <> replicate MATRIX_ROWS 0.
Proof.
  split; [vm_compute; reflexivity|].
  split; [vm_compute; reflexivity|].
  split; [vm_compute; reflexivity|].
  vm_compute. discriminate.
Qed.






(** * Further properties of the decoder *)

Lemma is_on_code_eq s code :
  wf s -> is_byte code -> is_on_code code s = Some (key_on (matrix s) code).
Proof.
  intros Hwf Hc. unfold is_on_code, eval.
  rewrite matrix_is_on_key by assumption. reflexivity.
Qed.

Lemma clr_key_idem (m : list Z) c :
  length m = MATRIX_ROWS -> is_byte c -> clr_key c (clr_key c m) = clr_key c m.
Proof. intros Hlen Hc. apply clr_key_off, key_on_clr_key_same; assumption. Qed.

Lemma same_keys_after_pseudo_break s s' :
  wf s -> wf s' -> matrix s' = clr_key PAUSE (matrix s) -> same_keys_but_pause s s'.
Proof.
  intros Hwf Hwf' Hm code Hc Hne. rewrite !is_on_code_eq by assumption.
  rewrite Hm, key_on_clr_key by (assumption || apply PAUSE_byte).
  rewrite (proj2 (Z.eqb_neq PAUSE code)) by congruence. reflexivity.
Qed.

(** ** Overrun and stray bytes *)

(** X1: the byte 0x00 received in the idle state is the overrun: the whole
    matrix is cleared, [clear_keyboard] is called once and the decoder stays
    idle. *)
Theorem overrun_recovers s :
  wf s -> state s = INIT -> recovers 0x00 s INIT.
Proof.
  intros Hwf Hst. destruct s as [m md st cl]. cbn in Hst. subst st.
  unfold recovers. eexists. split; [tick; reflexivity | repeat split].
Qed.

Lemma overrun_recovers_witness : recovers 0x00 idle_with_1C INIT.
Proof. apply (overrun_recovers idle_with_1C); reflexivity. Defined.

(** X2: in the extended-prefix state every byte from 0x80 up other than 0xF0
    is unexpected: the matrix is cleared, [clear_keyboard] is called once and
    the decoder returns to idle. *)
Theorem extended_prefix_violation_recovers b s :
  wf s -> state s = E0 -> 0x80 <= b <= 0xFF -> b <> 0xF0 -> recovers b s INIT.
Proof.
  intros Hwf Hst Hb Hne. destruct s as [m md st cl]. cbn in Hst. subst st.
  unfold recovers. eexists. split; [tick; reflexivity | repeat split].
Qed.

Lemma extended_prefix_violation_recovers_witness :
  recovers 0xE0 (Machine (matrix idle_with_1C) false E0 []) INIT.
Proof.
  apply (extended_prefix_violation_recovers 0xE0 (Machine (matrix idle_with_1C) false E0 []));
    [reflexivity | reflexivity | lia | lia].
Defined.

(** ** Self-test notifications *)

(** X3: the bytes 0xAA and 0xFC received in the idle state call
    [led_set(host_keyboard_leds())] once and nothing else: no key changes
    apart from the pseudo break, [clear_keyboard] is not called, and the
    decoder stays idle. *)
Theorem self_test_calls_led_set b s :
  wf s -> state s = INIT -> b = 0xAA \/ b = 0xFC ->
  exists s',
    run [byte_ok b] s = Some s' /\
    calls s' = calls s ++ [Led_set] /\
    state s' = INIT /\
    same_keys_but_pause s s'.
Proof.
  intros Hwf Hst Hb. destruct s as [m md st cl]. cbn in Hst. subst st.
  eexists. split; [|split; [|split]].
  - destruct Hb as [-> | ->]; tick; reflexivity.
  - reflexivity.
  - reflexivity.
  - apply same_keys_after_pseudo_break; [exact Hwf | wf_tac | reflexivity].
Qed.

Lemma self_test_calls_led_set_witness :
  exists s',
    run [byte_ok 0xAA] idle_with_1C = Some s' /\
    calls s' = calls idle_with_1C ++ [Led_set] /\
    state s' = INIT /\
    same_keys_but_pause idle_with_1C s'.
Proof.
  apply (self_test_calls_led_set 0xAA idle_with_1C); [reflexivity | reflexivity | left; reflexivity].
Defined.

(** ** Prefix and postfix codes *)

Lemma run_app rxs1 : forall rxs2 s,
  run (rxs1 ++ rxs2) s
  = match run rxs1 s with
    | Some s' => run rxs2 s'
    | None => None
    end.
Proof.
  induction rxs1 as [| rx rxs1 IH]; intros rxs2 s; [reflexivity|].
  cbn [app run]. destruct (matrix_scan rx s) as [[a s']|]; [apply IH | reflexivity].
Qed.

Lemma absorbed_once q (m : list Z) md cl :
  length m = MATRIX_ROWS -> In q absorbed_sequences ->
  run (map byte_ok q) (Machine m md INIT cl)
  = Some (Machine (clr_key PAUSE m) false INIT cl).
Proof.
  intros Hlen Hq.
  assert (key_on (clr_key PAUSE m) PAUSE = false) as Hoff
    by (apply key_on_clr_key_same; [exact Hlen | apply PAUSE_byte]).
  cbn [absorbed_sequences In] in Hq.
  destruct Hq as [<- | [<- | [<- | [<- | []]]]]; cbn [map]; repeat tick;
    rewrite !clr_key_idem, ?Hoff by (wf_tac || byte_tac); reflexivity.
Qed.

(** X4: the sequences E0 12, E0 59, E0 F0 12 and E0 F0 59, delivered from
    idle any number of times and in any order, are absorbed: apart from the
    pseudo break no key changes, no collaborator is called and the decoder
    ends idle. *)
Theorem shift_prefixes_are_absorbed seqs : forall s,
  wf s -> state s = INIT -> seqs <> [] ->
  Forall (fun q => In q absorbed_sequences) seqs ->
  exists s',
    run (map byte_ok (concat seqs)) s = Some s' /\
    state s' = INIT /\ calls s' = calls s /\
    is_on_code PAUSE s' = Some false /\
    same_keys_but_pause s s'.
Proof.
  assert (forall (m : list Z) md cl, length m = MATRIX_ROWS ->
            seqs <> [] -> Forall (fun q => In q absorbed_sequences) seqs ->
            run (map byte_ok (concat seqs)) (Machine m md INIT cl)
            = Some (Machine (clr_key PAUSE m) false INIT cl)) as Hrun.
  { induction seqs as [| q rest IH]; intros m md cl Hlen Hne Hall; [contradiction|].
    apply Forall_cons in Hall as [Hq Hrest].
    cbn [concat]. rewrite map_app, run_app, (absorbed_once q m md cl Hlen Hq).
    destruct rest as [| q' rest']; [reflexivity|].
    rewrite IH by (rewrite ?length_clr_key; assumption || discriminate).
    rewrite clr_key_idem by (assumption || apply PAUSE_byte). reflexivity. }
  intros s Hwf Hst Hne Hall. destruct s as [m md st cl]. cbn in Hst. subst st.
  eexists. split; [apply Hrun; assumption|].
  split; [reflexivity | split; [reflexivity | split]].
  - rewrite is_on_code_eq by (wf_tac || byte_tac). cbn [matrix].
    rewrite key_on_clr_key_same by (wf_tac || byte_tac). reflexivity.
  - apply same_keys_after_pseudo_break; [exact Hwf | wf_tac | reflexivity].
Qed.

Lemma shift_prefixes_are_absorbed_witness :
  exists s',
    run (map byte_ok (concat [[0xE0; 0xF0; 0x12]; [0xE0; 0x59]; [0xE0; 0x12]]))
        idle_with_1C = Some s' /\
    state s' = INIT /\ calls s' = calls idle_with_1C /\
    is_on_code PAUSE s' = Some false /\
    same_keys_but_pause idle_with_1C s'.
Proof.
  apply (shift_prefixes_are_absorbed [[0xE0; 0xF0; 0x12]; [0xE0; 0x59]; [0xE0; 0x12]]
           idle_with_1C); [reflexivity | reflexivity | discriminate |].
  repeat constructor; cbn; tauto.
Defined.

(** ** Keys with two encodings *)

(** X5: "both scan codes 'E0 7C' and 84 are seen as PrintScreen": from idle
    the two leave the same matrix, with the cell 0xFC pressed, and the break
    of either encoding releases the key pressed by the other.  In the same
    way E0 03 presses the cell 0x83 of F7. *)
Theorem print_screen_has_two_encodings s :
  wf s -> state s = INIT ->
  exists s1 s2,
    run [byte_ok 0x84] s = Some s1 /\
    run [byte_ok 0xE0; byte_ok 0x7C] s = Some s2 /\
    matrix s1 = matrix s2 /\
    is_on_code PRINT_SCREEN s1 = Some true /\
    (exists t, run [byte_ok 0xE0; byte_ok 0xF0; byte_ok 0x7C] s1 = Some t /\
               is_on_code PRINT_SCREEN t = Some false) /\
    (exists t, run [byte_ok 0xF0; byte_ok 0x84] s2 = Some t /\
               is_on_code PRINT_SCREEN t = Some false) /\
    (exists t1 t2, run [byte_ok 0x83] s = Some t1 /\
                   run [byte_ok 0xE0; byte_ok 0x03] s = Some t2 /\
                   matrix t1 = matrix t2 /\
                   is_on_code F7 t1 = Some true).
Proof.
  intros Hwf Hst. destruct s as [m md st cl]. cbn in Hst. subst st.
  eexists _, _. split; [tick; reflexivity|].
  split; [tick; tick; reflexivity|].
  change (Z.lor 0x7C 0x80) with PRINT_SCREEN. cbn [matrix].
  split; [rewrite clr_key_idem by (wf_tac || byte_tac); reflexivity|].
  split.
  { rewrite is_on_code_eq by (wf_tac || byte_tac). cbn [matrix].
    rewrite key_on_set_key_same by (wf_tac || byte_tac). reflexivity. }
  split.
  { eexists. split; [tick; tick; tick; reflexivity|].
    change (Z.lor 0x7C 0x80) with PRINT_SCREEN.
    rewrite is_on_code_eq by (wf_tac || byte_tac). cbn [matrix].
    rewrite key_on_clr_key_same by (wf_tac || byte_tac). reflexivity. }
  split.
  { eexists. split; [tick; tick; reflexivity|].
    rewrite is_on_code_eq by (wf_tac || byte_tac). cbn [matrix].
    rewrite key_on_clr_key_same by (wf_tac || byte_tac). reflexivity. }
  eexists _, _. split; [tick; reflexivity|].
  split; [tick; tick; reflexivity|].
  change (Z.lor 0x03 0x80) with F7. cbn [matrix].
  split; [rewrite clr_key_idem by (wf_tac || byte_tac); reflexivity|].
  rewrite is_on_code_eq by (wf_tac || byte_tac). cbn [matrix].
  rewrite key_on_set_key_same by (wf_tac || byte_tac). reflexivity.
Qed.

Lemma print_screen_has_two_encodings_witness :
  exists s1 s2,
    run [byte_ok 0x84] power_on = Some s1 /\
    run [byte_ok 0xE0; byte_ok 0x7C] power_on = Some s2 /\
    matrix s1 = matrix s2 /\
    is_on_code PRINT_SCREEN s1 = Some true /\
    (exists t, run [byte_ok 0xE0; byte_ok 0xF0; byte_ok 0x7C] s1 = Some t /\
               is_on_code PRINT_SCREEN t = Some false) /\
    (exists t, run [byte_ok 0xF0; byte_ok 0x84] s2 = Some t /\
               is_on_code PRINT_SCREEN t = Some false) /\
    (exists t1 t2, run [byte_ok 0x83] power_on = Some t1 /\
                   run [byte_ok 0xE0; byte_ok 0x03] power_on = Some t2 /\
                   matrix t1 = matrix t2 /\
                   is_on_code F7 t1 = Some true).
Proof. apply (print_screen_has_two_encodings power_on); reflexivity. Defined.

(** ** The pause chains *)

(** X6: the control'd pause sequence E0 7E E0 F0 7E, delivered from idle,
    presses the pause cell with its last byte and not before; the next tick
    releases it whatever it receives, and it stays released while the
    transport only raises [ps2_error]. *)
Theorem ctrl_pause_is_a_one_tick_pulse s :
  wf s -> state s = INIT ->
  exists s5,
    run (map byte_ok ctrl_pause_sequence) s = Some s5 /\
    is_on_code PAUSE s5 = Some true /\
    state s5 = INIT /\ calls s5 = calls s /\
    (forall k, (0 < k < 5)%nat ->
       exists sk, run (map byte_ok (take k ctrl_pause_sequence)) s = Some sk /\
                  is_on_code PAUSE sk = Some false) /\
    (forall rx, is_byte (rx_code rx) ->
       exists s6, exec (matrix_scan rx) s5 = Some s6 /\
                  is_on_code PAUSE s6 = Some false) /\
    (forall rxs, rxs <> [] -> Forall (fun rx => rx_error rx <> 0) rxs ->
       exists s', run rxs s5 = Some s' /\ is_on_code PAUSE s' = Some false).
Proof.
  intros Hwf Hst. destruct s as [m md st cl]. cbn in Hst. subst st.
  eexists. split; [|split; [|split; [|split; [|split; [|split]]]]].
  - cbn [map ctrl_pause_sequence]. repeat tick. reflexivity.
  - rewrite is_on_code_eq by (wf_tac || byte_tac). cbn [matrix].
    rewrite key_on_set_key_same by (wf_tac || byte_tac). reflexivity.
  - reflexivity.
  - reflexivity.
  - intros k Hk.
    assert (k = 1 \/ k = 2 \/ k = 3 \/ k = 4)%nat
      as [-> | [-> | [-> | ->]]] by lia;
      cbn [take map ctrl_pause_sequence];
      (eexists; split; [repeat tick; reflexivity|]);
      rewrite is_on_code_eq by (wf_tac || byte_tac);
      cbn [matrix]; rewrite key_on_clr_key_same by (wf_tac || byte_tac);
      reflexivity.
  - intros rx Hrx. apply idle_tick_releases_pause; [wf_tac | reflexivity | exact Hrx].
  - intros rxs Hne Herr.
    edestruct (error_ticks_release_pause rxs) as (s' & Hrun & Hoff & _);
      [| exact Hne | exact Herr | exists s'; split; [exact Hrun | exact Hoff]].
    wf_tac.
Qed.

Lemma ctrl_pause_is_a_one_tick_pulse_witness :
  exists s5,
    run (map byte_ok ctrl_pause_sequence) power_on = Some s5 /\
    is_on_code PAUSE s5 = Some true /\
    state s5 = INIT /\ calls s5 = calls power_on /\
    (forall k, (0 < k < 5)%nat ->
       exists sk, run (map byte_ok (take k ctrl_pause_sequence)) power_on = Some sk /\
                  is_on_code PAUSE sk = Some false) /\
    (forall rx, is_byte (rx_code rx) ->
       exists s6, exec (matrix_scan rx) s5 = Some s6 /\
                  is_on_code PAUSE s6 = Some false) /\
    (forall rxs, rxs <> [] -> Forall (fun rx => rx_error rx <> 0) rxs ->
       exists s', run rxs s5 = Some s' /\ is_on_code PAUSE s' = Some false).
Proof. apply (ctrl_pause_is_a_one_tick_pulse power_on); reflexivity. Defined.

(** X7: in each of the ten states of the two pause chains a byte other than
    the one the chain expects next ends the chain: the decoder returns to
    idle, the byte itself is dropped (no make, no break, no clear), and no
    collaborator is called. *)
Theorem pause_chain_mismatch_drops_byte code e s :
  wf s -> is_byte code -> expected (state s) = Some e -> code <> e ->
  exists s',
    exec (matrix_scan (byte_ok code)) s = Some s' /\
    exec (set_is_modified false ;;; pseudo_break ;;; set_state INIT) s = Some s' /\
    state s' = INIT /\ calls s' = calls s /\
    same_keys_but_pause s s'.
Proof.
  intros Hwf Hc He Hne. destruct s as [m md st cl]. cbn [state] in He.
  exists (Machine (clr_key PAUSE m) (key_on m PAUSE) INIT cl).
  split; [|split; [|split; [reflexivity | split; [reflexivity|]]]].
  - unfold exec. rewrite matrix_scan_eq by exact Hwf.
    cbn [byte_ok rx_error rx_code]. change (negb (0 =? 0)) with false. cbn iota.
    destruct st; cbn [expected] in He; try discriminate He;
      injection He as <-; open_switch; reflexivity.
  - unfold exec, bind, set_is_modified, set_state.
    rewrite pseudo_break_eq by wf_tac. reflexivity.
  - apply same_keys_after_pseudo_break; [exact Hwf | wf_tac | reflexivity].
Qed.

Lemma pause_chain_mismatch_drops_byte_witness :
  exists s',
    exec (matrix_scan (byte_ok 0x1C)) (Machine (replicate MATRIX_ROWS 0) false E1_14 []) = Some s' /\
    exec (set_is_modified false ;;; pseudo_break ;;; set_state INIT)
         (Machine (replicate MATRIX_ROWS 0) false E1_14 []) = Some s' /\
    state s' = INIT /\ calls s' = [] /\
    same_keys_but_pause (Machine (replicate MATRIX_ROWS 0) false E1_14 []) s'.
Proof.
  apply (pause_chain_mismatch_drops_byte 0x1C 0x77
           (Machine (replicate MATRIX_ROWS 0) false E1_14 []));
    [reflexivity | unfold is_byte; lia | reflexivity | lia].
Defined.

(** X8: whatever state the decoder is in, a byte below 0x80 other than
    0x14, 0x77 and 0x7E leaves it idle: no ordinary key code is ever taken
    for the middle of a sequence. *)
Theorem ordinary_code_ends_in_idle code s :
  wf s -> 0 <= code < 0x80 -> code <> 0x14 -> code <> 0x77 -> code <> 0x7E ->
  exists s', exec (matrix_scan (byte_ok code)) s = Some s' /\ state s' = INIT.
Proof.
  intros Hwf Hc H14 H77 H7E. destruct s as [m md st cl].
  unfold exec. rewrite matrix_scan_eq by exact Hwf.
  cbn [byte_ok rx_error rx_code]. change (negb (0 =? 0)) with false. cbn iota.
  destruct st; open_switch; split_ifs; tests_to_Prop; try lia; try do_matrix_op;
    eexists; split; reflexivity.
Qed.

Lemma ordinary_code_ends_in_idle_witness :
  exists s', exec (matrix_scan (byte_ok 0x1C))
                  (Machine (replicate MATRIX_ROWS 0) false E1_14_77_E1_F0 []) = Some s' /\
             state s' = INIT.
Proof.
  apply (ordinary_code_ends_in_idle 0x1C
           (Machine (replicate MATRIX_ROWS 0) false E1_14_77_E1_F0 []));
    [reflexivity | lia | lia | lia | lia].
Defined.

(** ** What one tick can do to the matrix *)

(** The interpretation of one byte, with the codes it can make and the
    collaborator it can call. *)
Lemma scan_switch_events code s :
  wf s -> is_byte code ->
  exists s',
    scan_switch code s = Some (tt, s') /\
    ((matrix s' = matrix s /\ is_modified s' = is_modified s /\
      (calls s' = calls s \/ calls s' = calls s ++ [Led_set]))
     \/ (exists c, matrix s' = set_key c (matrix s) /\
           is_modified s' = is_modified s || negb (key_on (matrix s) c) /\
           calls s' = calls s /\
           is_byte c /\ c <> 0x00 /\ c <> 0x92 /\ c <> 0xD9)
     \/ (exists c, matrix s' = clr_key c (matrix s) /\
           is_modified s' = is_modified s || key_on (matrix s) c /\
           calls s' = calls s /\ is_byte c)
     \/ (matrix s' = replicate MATRIX_ROWS 0 /\
         is_modified s' = is_modified s /\
         calls s' = calls s ++ [Clear_keyboard])).
Proof.
  intros Hwf Hc. destruct s as [m md st cl].
  destruct st; open_switch; split_ifs; tests_to_Prop; try do_matrix_op;
    (eexists; split; [reflexivity|]); cbn [matrix is_modified calls];
    first [ left; split; [reflexivity | split; [reflexivity|]];
            first [ left; reflexivity | right; reflexivity ]
          | right; left; eexists;
            split; [reflexivity | split; [reflexivity | split; [reflexivity|]]];
            unfold is_byte, F7, PRINT_SCREEN, PAUSE in *;
            rewrite ?lor_0x80 by lia; lia
          | right; right; left; eexists;
            split; [reflexivity | split; [reflexivity | split; [reflexivity|]]];
            byte_tac
          | right; right; right; repeat split ].
Qed.

Lemma wf_of_length s : length (matrix s) = MATRIX_ROWS -> wf s.
Proof. trivial. Qed.

(** Without EXTRA_BUTTONS_ENABLE a tick either clears the whole matrix, and
    then it calls [clear_keyboard] once, or it leaves every cell as it was
    apart from the pause cell and at most one other, and then it does not
    call [clear_keyboard]. *)
Lemma decoder_tick_changes_at_most_one_key rx s :
  wf s -> is_byte (rx_code rx) ->
  exists s',
    exec (matrix_scan rx) s = Some s' /\
    ((matrix s' = replicate MATRIX_ROWS 0 /\
      calls s' = calls s ++ [Clear_keyboard])
     \/ ((calls s' = calls s \/ calls s' = calls s ++ [Led_set]) /\
         exists c, is_byte c /\
           forall d, is_byte d -> d <> c -> d <> PAUSE ->
             is_on_code d s' = is_on_code d s)).
Proof.
  intros Hwf Hc. unfold exec. rewrite matrix_scan_eq by exact Hwf.
  assert (length (clr_key PAUSE (matrix s)) = MATRIX_ROWS) as Hlen
    by (rewrite length_clr_key; exact Hwf).
  assert (forall d, is_byte d -> d <> PAUSE ->
            key_on (clr_key PAUSE (matrix s)) d = key_on (matrix s) d) as Hpb.
  { intros d Hd Hne. rewrite key_on_clr_key by (assumption || apply PAUSE_byte).
    rewrite (proj2 (Z.eqb_neq PAUSE d)) by congruence. reflexivity. }
  destruct (negb (rx_error rx =? 0)).
  - eexists. split; [reflexivity|]. right. split; [left; reflexivity|].
    exists PAUSE. split; [apply PAUSE_byte|]. intros d Hd _ Hne.
    rewrite !is_on_code_eq by (assumption || apply wf_after_pseudo_break, Hwf).
    cbn [after_pseudo_break matrix]. f_equal. apply Hpb; assumption.
  - destruct (scan_switch_events (rx_code rx) (after_pseudo_break s))
      as (s' & -> & Hcases); [apply wf_after_pseudo_break, Hwf | exact Hc |].
    exists s'. split; [reflexivity|].
    cbn [after_pseudo_break is_modified matrix calls] in Hcases.
    destruct Hcases as [(Hm & _ & Hcalls) | [(c & Hm & _ & Hcalls & Hbc & _)
                       | [(c & Hm & _ & Hcalls & Hbc) | (Hm & _ & Hcalls)]]].
    + right. split; [exact Hcalls|]. exists PAUSE. split; [apply PAUSE_byte|].
      intros d Hd _ Hne.
      rewrite !is_on_code_eq by (assumption || apply wf_of_length; rewrite Hm; exact Hlen).
      rewrite Hm. f_equal. apply Hpb; assumption.
    + right. split; [left; exact Hcalls|]. exists c. split; [exact Hbc|].
      intros d Hd Hdc Hne.
      rewrite !is_on_code_eq
        by (assumption || apply wf_of_length; rewrite Hm, length_set_key; exact Hlen).
      rewrite Hm, key_on_set_key by assumption.
      rewrite (proj2 (Z.eqb_neq c d)) by congruence. cbn [orb].
      f_equal. apply Hpb; assumption.
    + right. split; [left; exact Hcalls|]. exists c. split; [exact Hbc|].
      intros d Hd Hdc Hne.
      rewrite !is_on_code_eq
        by (assumption || apply wf_of_length; rewrite Hm, length_clr_key; exact Hlen).
      rewrite Hm, key_on_clr_key by assumption.
      rewrite (proj2 (Z.eqb_neq c d)) by congruence. cbn [negb andb].
      f_equal. apply Hpb; assumption.
    + left. split; assumption.
Qed.



(** ** Cells the decoder uses *)

Lemma tick_keeps_cell_off d rx s :
  d = 0x00 \/ d = 0x92 \/ d = 0xD9 ->
  wf s -> key_on (matrix s) d = false -> is_byte (rx_code rx) ->
  exists s', matrix_scan rx s = Some (1, s') /\ wf s' /\
             key_on (matrix s') d = false.
Proof.
  intros Hd Hwf Hoff Hc.
  assert (is_byte d) as Hbd by (unfold is_byte; lia).
  assert (length (clr_key PAUSE (matrix s)) = MATRIX_ROWS) as Hlen
    by (rewrite length_clr_key; exact Hwf).
  assert (key_on (clr_key PAUSE (matrix s)) d = false) as Hoff'.
  { rewrite key_on_clr_key, Hoff by (assumption || apply PAUSE_byte).
    apply andb_false_r. }
  rewrite matrix_scan_eq by exact Hwf.
  destruct (negb (rx_error rx =? 0)).
  - eexists. split; [reflexivity|]. split; [apply wf_after_pseudo_break, Hwf | exact Hoff'].
  - destruct (scan_switch_events (rx_code rx) (after_pseudo_break s))
      as (s' & -> & Hcases); [apply wf_after_pseudo_break, Hwf | exact Hc |].
    exists s'. split; [reflexivity|].
    cbn [after_pseudo_break is_modified matrix calls] in Hcases.
    destruct Hcases as [(Hm & _) | [(c & Hm & _ & _ & Hbc & Hc0 & Hc92 & HcD9)
                       | [(c & Hm & _ & _ & Hbc) | (Hm & _)]]];
      unfold wf; rewrite Hm.
    + split; assumption.
    + split; [rewrite length_set_key; exact Hlen|].
      rewrite key_on_set_key, Hoff' by assumption.
      rewrite (proj2 (Z.eqb_neq c d)) by lia. reflexivity.
    + split; [rewrite length_clr_key; exact Hlen|].
      rewrite key_on_clr_key, Hoff' by assumption. apply andb_false_r.
    + split; [apply length_replicate | apply key_on_clear].
Qed.

(** X11: the cells 0x00, 0x92 and 0xD9 are never pressed: whatever bytes and
    transport errors follow power-on, they read released.  0x00 is the
    overrun byte, and E0 12 and E0 59 are the ignored shift prefixes. *)
Theorem three_cells_are_never_pressed d rxs :
  d = 0x00 \/ d = 0x92 \/ d = 0xD9 ->
  Forall (fun rx => is_byte (rx_code rx)) rxs ->
  exists s, run rxs power_on = Some s /\ is_on_code d s = Some false.
Proof.
  intros Hd Hrxs.
  assert (is_byte d) as Hbd by (unfold is_byte; lia).
  assert (forall s, wf s -> key_on (matrix s) d = false ->
            exists s', run rxs s = Some s' /\ wf s' /\
                       key_on (matrix s') d = false) as Hind.
  { induction Hrxs as [| rx rxs Hrx _ IH]; intros s Hwf Hoff.
    - exists s. split; [reflexivity | split; assumption].
    - destruct (tick_keeps_cell_off d rx s Hd Hwf Hoff Hrx) as (s1 & E1 & Hwf1 & Hoff1).
      destruct (IH s1 Hwf1 Hoff1) as (s2 & E2 & H2).
      exists s2. cbn [run]. rewrite E1. split; assumption. }
  destruct (Hind power_on) as (s & Hrun & Hwf & Hoff);
    [reflexivity | apply key_on_clear |].
  exists s. split; [exact Hrun|]. rewrite is_on_code_eq, Hoff by assumption. reflexivity.
Qed.

Lemma three_cells_are_never_pressed_witness :
  exists s, run [byte_ok 0xE0; byte_ok 0x12; byte_ok 0x00; Rx 0x59 1; byte_ok 0xE0;
                 byte_ok 0xF0; byte_ok 0x59] power_on = Some s /\
            is_on_code 0x92 s = Some false.
Proof.
  apply (three_cells_are_never_pressed 0x92); [right; left; reflexivity|].
  repeat constructor; cbn; lia.
Defined.

(** X12: every other cell can be pressed: from any idle state some sequence
    of at most eight bytes leaves the cell of [d] pressed. *)
Theorem every_other_cell_can_be_pressed d s :
  wf s -> state s = INIT -> is_byte d ->
  d <> 0x00 -> d <> 0x92 -> d <> 0xD9 ->
  exists codes s',
    Forall is_byte codes /\ (length codes <= 8)%nat /\
    run (map byte_ok codes) s = Some s' /\
    is_on_code d s' = Some true.
Proof.
  intros Hwf Hst Hd H0 H92 HD9. destruct s as [m md st cl]. cbn in Hst. subst st.
  unfold is_byte in Hd.
  destruct (Z.lt_ge_cases d 0x80) as [Hlow | Hhigh].
  - exists [d]. eexists. split; [repeat constructor; byte_tac|].
    split; [cbn; lia|]. split; [cbn [map]; tick; reflexivity|].
    rewrite is_on_code_eq by (wf_tac || byte_tac). cbn [matrix].
    apply f_equal, key_on_set_key_same; wf_tac || byte_tac.
  - destruct (Z.eq_dec d PAUSE) as [-> | Hne].
    + exists pause_sequence. eexists.
      split; [repeat constructor; unfold is_byte; lia|].
      split; [cbn; lia|].
      split; [cbn [map pause_sequence]; repeat tick; reflexivity|].
      rewrite is_on_code_eq by (wf_tac || byte_tac). cbn [matrix].
      apply f_equal, key_on_set_key_same; wf_tac || byte_tac.
    + unfold PAUSE in Hne. exists [0xE0; d - 0x80]. eexists.
      split; [repeat constructor; unfold is_byte; lia|].
      split; [cbn; lia|].
      split; [cbn [map]; tick; tick; reflexivity|].
      replace (Z.lor (d - 0x80) 0x80) with d by (rewrite lor_0x80; lia).
      rewrite is_on_code_eq by (wf_tac || byte_tac). cbn [matrix].
      apply f_equal, key_on_set_key_same; wf_tac || byte_tac.
Qed.

Lemma every_other_cell_can_be_pressed_witness :
  exists codes s',
    Forall is_byte codes /\ (length codes <= 8)%nat /\
    run (map byte_ok codes) power_on = Some s' /\
    is_on_code 0xF1 s' = Some true.
Proof.
  apply (every_other_cell_can_be_pressed 0xF1 power_on);
    [reflexivity | reflexivity | unfold is_byte; lia | lia | lia | lia].
Defined.

(** * Further properties of the key matrix *)

Lemma to_uint8_byte z : is_byte (to_uint8 z).
Proof. unfold is_byte, to_uint8. apply Z.mod_pos_bound. lia. Qed.

Lemma set_key_bytes c m : rows_are_bytes m -> rows_are_bytes (set_key c m).
Proof.
  intros Hm. unfold set_key. destruct (key_on m c); [exact Hm|].
  apply Forall_insert; [exact Hm | apply to_uint8_byte].
Qed.

Lemma clr_key_bytes c m : rows_are_bytes m -> rows_are_bytes (clr_key c m).
Proof.
  intros Hm. unfold clr_key. destruct (key_on m c); [|exact Hm].
  apply Forall_insert; [exact Hm | apply to_uint8_byte].
Qed.

Lemma byte_high_bits r n : is_byte r -> 8 <= n -> Z.testbit r n = false.
Proof.
  intros Hr Hn. apply Z.testbit_false; [lia|].
  rewrite Z.div_small; [reflexivity|]. split; [apply Hr|].
  apply Z.lt_le_trans with (2 ^ 8); [apply Hr|].
  apply Z.pow_le_mono_r; lia.
Qed.

Lemma cell_of_row_col (i : nat) n :
  0 <= n < 8 ->
  ROW (Z.of_nat i * 8 + n) = Z.of_nat i /\ COL (Z.of_nat i * 8 + n) = n.
Proof.
  intros Hn. rewrite ROW_div, COL_mod. split.
  - rewrite Z.div_add_l, Z.div_small by lia. lia.
  - rewrite Z.add_comm, Z.mod_add, Z.mod_small by lia. reflexivity.
Qed.

(** Two matrices that read the same at every cell are the same array. *)
Lemma matrix_ext (m m' : list Z) :
  length m = MATRIX_ROWS -> length m' = MATRIX_ROWS ->
  rows_are_bytes m -> rows_are_bytes m' ->
  (forall c, is_byte c -> key_on m c = key_on m' c) ->
  m = m'.
Proof.
  unfold rows_are_bytes. intros Hlen Hlen' Hb Hb' Hkeys. apply list_eq. intros i.
  destruct (Nat.lt_ge_cases i MATRIX_ROWS) as [Hi | Hi].
  - destruct (lookup_lt_is_Some_2 m i) as [r Hr]; [lia|].
    destruct (lookup_lt_is_Some_2 m' i) as [r' Hr']; [lia|].
    rewrite Hr, Hr'. f_equal.
    pose proof (Forall_lookup_1 is_byte m i r Hb Hr) as Hbr.
    pose proof (Forall_lookup_1 is_byte m' i r' Hb' Hr') as Hbr'.
    apply Z.bits_inj'. intros n Hn.
    destruct (Z.lt_ge_cases n 8) as [Hlow | Hhigh].
    + destruct (cell_of_row_col i n) as [Hrow Hcol]; [lia|].
      assert (is_byte (Z.of_nat i * 8 + n)) as Hc
        by (unfold is_byte, MATRIX_ROWS in *; lia).
      specialize (Hkeys _ Hc). unfold key_on, row_of in Hkeys.
      rewrite Hrow, Hcol, Nat2Z.id, Hr, Hr' in Hkeys. exact Hkeys.
    + rewrite !byte_high_bits by assumption. reflexivity.
  - rewrite !lookup_ge_None_2 by lia. reflexivity.
Qed.

(** ** One cell at a time *)

(** X13: [matrix_make] and [matrix_break] touch their own cell only: after
    [matrix_make(c)] the cell of [c] reads pressed, after [matrix_break(c)]
    released, every other cell reads as before, and [is_modified] is raised
    exactly when the cell changed. *)
Theorem make_and_break_touch_one_cell c s :
  wf s -> is_byte c ->
  (exists s', exec (matrix_make c) s = Some s' /\
     is_on_code c s' = Some true /\
     (forall d, is_byte d -> d <> c -> is_on_code d s' = is_on_code d s) /\
     (is_on_code c s = Some true -> is_modified s' = is_modified s) /\
     (is_on_code c s = Some false -> is_modified s' = true)) /\
  (exists s', exec (matrix_break c) s = Some s' /\
     is_on_code c s' = Some false /\
     (forall d, is_byte d -> d <> c -> is_on_code d s' = is_on_code d s) /\
     (is_on_code c s = Some false -> is_modified s' = is_modified s) /\
     (is_on_code c s = Some true -> is_modified s' = true)).
Proof.
  intros Hwf Hc. rewrite (is_on_code_eq s c Hwf Hc). split.
  - eexists. split; [apply exec_matrix_make; assumption|].
    split; [|split; [|split]].
    + rewrite is_on_code_eq by (wf_tac || assumption). cbn [matrix].
      rewrite key_on_set_key_same by assumption. reflexivity.
    + intros d Hd Hne. rewrite !is_on_code_eq by (wf_tac || assumption).
      cbn [matrix]. rewrite key_on_set_key by assumption.
      rewrite (proj2 (Z.eqb_neq c d)) by congruence. reflexivity.
    + intros [= ->]. cbn [is_modified negb]. apply orb_false_r.
    + intros [= ->]. cbn [is_modified negb]. apply orb_true_r.
  - eexists. split; [apply exec_matrix_break; assumption|].
    split; [|split; [|split]].
    + rewrite is_on_code_eq by (wf_tac || assumption). cbn [matrix].
      rewrite key_on_clr_key_same by assumption. reflexivity.
    + intros d Hd Hne. rewrite !is_on_code_eq by (wf_tac || assumption).
      cbn [matrix]. rewrite key_on_clr_key by assumption.
      rewrite (proj2 (Z.eqb_neq c d)) by congruence. reflexivity.
    + intros [= ->]. cbn [is_modified]. apply orb_false_r.
    + intros [= ->]. cbn [is_modified]. apply orb_true_r.
Qed.

Lemma make_and_break_touch_one_cell_witness :
  (exists s', exec (matrix_make 0x1D) idle_with_1C = Some s' /\
     is_on_code 0x1D s' = Some true /\
     (forall d, is_byte d -> d <> 0x1D -> is_on_code d s' = is_on_code d idle_with_1C) /\
     (is_on_code 0x1D idle_with_1C = Some true -> is_modified s' = is_modified idle_with_1C) /\
     (is_on_code 0x1D idle_with_1C = Some false -> is_modified s' = true)) /\
  (exists s', exec (matrix_break 0x1D) idle_with_1C = Some s' /\
     is_on_code 0x1D s' = Some false /\
     (forall d, is_byte d -> d <> 0x1D -> is_on_code d s' = is_on_code d idle_with_1C) /\
     (is_on_code 0x1D idle_with_1C = Some false -> is_modified s' = is_modified idle_with_1C) /\
     (is_on_code 0x1D idle_with_1C = Some true -> is_modified s' = true)).
Proof.
  apply (make_and_break_touch_one_cell 0x1D idle_with_1C); [reflexivity | unfold is_byte; lia].
Defined.

(** ** Round trips and order *)

Lemma clr_set_key (m : list Z) c :
  length m = MATRIX_ROWS -> rows_are_bytes m -> is_byte c ->
  key_on m c = false -> clr_key c (set_key c m) = m.
Proof.
  intros Hlen Hb Hc Hoff. apply matrix_ext.
  - rewrite length_clr_key, length_set_key. exact Hlen.
  - exact Hlen.
  - apply clr_key_bytes, set_key_bytes, Hb.
  - exact Hb.
  - intros d Hd.
    rewrite key_on_clr_key, key_on_set_key by (rewrite ?length_set_key; assumption).
    destruct (Z.eqb_spec c d) as [<- | _]; [rewrite Hoff|]; reflexivity.
Qed.

Lemma set_clr_key (m : list Z) c :
  length m = MATRIX_ROWS -> rows_are_bytes m -> is_byte c ->
  key_on m c = true -> set_key c (clr_key c m) = m.
Proof.
  intros Hlen Hb Hc Hon. apply matrix_ext.
  - rewrite length_set_key, length_clr_key. exact Hlen.
  - exact Hlen.
  - apply set_key_bytes, clr_key_bytes, Hb.
  - exact Hb.
  - intros d Hd.
    rewrite key_on_set_key, key_on_clr_key by (rewrite ?length_clr_key; assumption).
    destruct (Z.eqb_spec c d) as [<- | _]; [rewrite Hon|]; reflexivity.
Qed.

Ltac len_tac :=
  repeat first [ rewrite length_set_key | rewrite length_clr_key ]; assumption.

(** X14: pressing and releasing a key that was released gives back the very
    matrix one started from, and so does releasing and pressing a key that
    was pressed.  At the level of the decoder, the bytes [c], F0, [c] of a
    plain key, delivered from idle, always leave the cell of [c] released
    and every cell other than it and the pause cell as it was: they give
    back the very matrix when the key and the pause key were released
    before, and a different matrix when the key was pressed before. *)
Theorem press_and_release_restore_the_matrix c s :
  wf s -> rows_are_bytes (matrix s) -> is_byte c ->
  (is_on_code c s = Some false ->
   exists s1 s2, exec (matrix_make c) s = Some s1 /\
                 exec (matrix_break c) s1 = Some s2 /\ matrix s2 = matrix s) /\
  (is_on_code c s = Some true ->
   exists s1 s2, exec (matrix_break c) s = Some s1 /\
                 exec (matrix_make c) s1 = Some s2 /\ matrix s2 = matrix s) /\
  (is_on_code c s = Some false -> is_on_code PAUSE s = Some false ->
   state s = INIT -> 0 < c < 0x80 ->
   exists s', run [byte_ok c; byte_ok 0xF0; byte_ok c] s = Some s' /\
              matrix s' = matrix s /\ state s' = INIT) /\
  (state s = INIT -> 0 < c < 0x80 ->
   exists s', run [byte_ok c; byte_ok 0xF0; byte_ok c] s = Some s' /\
              state s' = INIT /\
              is_on_code c s' = Some false /\
              (forall d, is_byte d -> d <> c -> d <> PAUSE ->
                 is_on_code d s' = is_on_code d s) /\
              (is_on_code c s = Some true -> matrix s' <> matrix s)).
Proof.
  intros Hwf Hb Hc. rewrite (is_on_code_eq s c Hwf Hc).
  split; [|split; [|split]].
  - intros [= Hoff]. eexists _, _.
    split; [apply exec_matrix_make; assumption|].
    split; [apply exec_matrix_break; wf_tac || assumption|].
    cbn [matrix]. apply clr_set_key; assumption.
  - intros [= Hon]. eexists _, _.
    split; [apply exec_matrix_break; assumption|].
    split; [apply exec_matrix_make; wf_tac || assumption|].
    cbn [matrix]. apply set_clr_key; assumption.
  - rewrite (is_on_code_eq s PAUSE Hwf PAUSE_byte).
    intros [= Hoff] [= Hpause] Hst Hplain.
    destruct s as [m md st cl]. cbn [state matrix] in *. subst st.
    eexists. split; [tick; tick; tick; reflexivity|].
    split; [|reflexivity]. cbn [matrix].
    rewrite (clr_key_off m PAUSE Hpause).
    assert (key_on (set_key c m) PAUSE = false) as Hp1.
    { rewrite key_on_set_key, Hpause by (assumption || apply PAUSE_byte).
      unfold PAUSE. decide_tests. reflexivity. }
    rewrite !(clr_key_off _ PAUSE Hp1). apply clr_set_key; assumption.
  - intros Hst Hplain.
    destruct s as [m md st cl]. cbn [state matrix] in *. subst st.
    eexists. split; [tick; tick; tick; reflexivity|].
    split; [reflexivity|].
    assert (key_on (clr_key c (clr_key PAUSE (clr_key PAUSE
              (set_key c (clr_key PAUSE m))))) c = false) as Hreleased
      by (apply key_on_clr_key_same; wf_tac || assumption).
    split; [|split].
    + rewrite is_on_code_eq by (wf_tac || assumption). cbn [matrix].
      rewrite Hreleased. reflexivity.
    + intros d Hd Hdc Hdp.
      rewrite !is_on_code_eq by (wf_tac || assumption). cbn [matrix]. f_equal.
      repeat first [ rewrite key_on_set_key by (assumption || apply PAUSE_byte || len_tac)
                   | rewrite key_on_clr_key by (assumption || apply PAUSE_byte || len_tac) ].
      rewrite (proj2 (Z.eqb_neq c d)), (proj2 (Z.eqb_neq PAUSE d)) by congruence.
      reflexivity.
    + intros [= Hon]. cbn [matrix]. intros Heq.
      rewrite Heq in Hreleased. congruence.
Qed.

Lemma press_and_release_restore_the_matrix_witness :
  (exists s1 s2, exec (matrix_make 0x1D) idle_with_1C = Some s1 /\
                 exec (matrix_break 0x1D) s1 = Some s2 /\
                 matrix s2 = matrix idle_with_1C) /\
  (exists s1 s2, exec (matrix_break 0x1C) idle_with_1C = Some s1 /\
                 exec (matrix_make 0x1C) s1 = Some s2 /\
                 matrix s2 = matrix idle_with_1C) /\
  (exists s', run [byte_ok 0x1D; byte_ok 0xF0; byte_ok 0x1D] idle_with_1C = Some s' /\
              matrix s' = matrix idle_with_1C /\ state s' = INIT) /\
  (exists s', run [byte_ok 0x1C; byte_ok 0xF0; byte_ok 0x1C] idle_with_1C = Some s' /\
              state s' = INIT /\
              is_on_code 0x1C s' = Some false /\
              (forall d, is_byte d -> d <> 0x1C -> d <> PAUSE ->
                 is_on_code d s' = is_on_code d idle_with_1C) /\
              matrix s' <> matrix idle_with_1C).
Proof.
  destruct (press_and_release_restore_the_matrix 0x1D idle_with_1C)
    as (Hmb & _ & Hrun & _);
    [reflexivity | repeat constructor; unfold is_byte; cbn; lia | unfold is_byte; lia |].
  destruct (press_and_release_restore_the_matrix 0x1C idle_with_1C)
    as (_ & Hbm & _ & Hheld);
    [reflexivity | repeat constructor; unfold is_byte; cbn; lia | unfold is_byte; lia |].
  split; [apply Hmb; reflexivity | split; [apply Hbm; reflexivity | split]].
  - apply Hrun; [reflexivity | reflexivity | reflexivity | lia].
  - destruct Hheld as (s' & Hs' & Hst & Hoff & Hothers & Hdiff); [reflexivity | lia |].
    exists s'. repeat split; try assumption. apply Hdiff. reflexivity.
Defined.

Lemma machine_eq m1 md1 st1 cl1 m2 md2 st2 cl2 :
  m1 = m2 -> md1 = md2 -> st1 = st2 -> cl1 = cl2 ->
  Some (Machine m1 md1 st1 cl1) = Some (Machine m2 md2 st2 cl2).
Proof. intros -> -> -> ->. reflexivity. Qed.

Lemma exec_bind {A B} (a : M A) (b : M B) s :
  exec (a ;;; b) s = match exec a s with
                     | Some s1 => exec b s1
                     | None => None
                     end.
Proof. unfold exec, bind. destruct (a s) as [[x s1]|]; reflexivity. Qed.

(** X15: makes and breaks of two different keys can be done in either
    order: the machine that results, [is_modified] included, is the same. *)
Theorem events_on_distinct_keys_commute c d s :
  wf s -> rows_are_bytes (matrix s) -> is_byte c -> is_byte d -> c <> d ->
  exec (matrix_make c ;;; matrix_make d) s = exec (matrix_make d ;;; matrix_make c) s /\
  exec (matrix_make c ;;; matrix_break d) s = exec (matrix_break d ;;; matrix_make c) s /\
  exec (matrix_break c ;;; matrix_break d) s = exec (matrix_break d ;;; matrix_break c) s.
Proof.
  intros Hwf Hb Hc Hd Hne. destruct s as [m md st cl].
  unfold wf in Hwf. cbn [matrix] in Hwf, Hb.
  assert ((c =? d) = false) as Ecd by (apply Z.eqb_neq; exact Hne).
  assert ((d =? c) = false) as Edc by (apply Z.eqb_neq; congruence).
  rewrite !exec_bind.
  repeat (rewrite ?exec_matrix_make, ?exec_matrix_break by (assumption || wf_tac);
          cbn [matrix is_modified state calls]).
  rewrite !key_on_set_key, !key_on_clr_key, ?Ecd, ?Edc by assumption.
  cbn [orb negb andb].
  split; [|split]; apply machine_eq; try reflexivity;
    try (destruct md, (key_on m c), (key_on m d); reflexivity);
    (apply matrix_ext;
     [ len_tac | len_tac
     | repeat first [apply set_key_bytes | apply clr_key_bytes]; exact Hb
     | repeat first [apply set_key_bytes | apply clr_key_bytes]; exact Hb
     | intros x Hx;
       repeat first [ rewrite key_on_set_key by (assumption || len_tac)
                    | rewrite key_on_clr_key by (assumption || len_tac) ];
       destruct (Z.eqb_spec c x), (Z.eqb_spec d x), (key_on m x);
       first [ reflexivity | congruence ] ]).
Qed.

Lemma events_on_distinct_keys_commute_witness :
  exec (matrix_make 0x1D ;;; matrix_make 0x1C) idle_with_1C
    = exec (matrix_make 0x1C ;;; matrix_make 0x1D) idle_with_1C /\
  exec (matrix_make 0x1D ;;; matrix_break 0x1C) idle_with_1C
    = exec (matrix_break 0x1C ;;; matrix_make 0x1D) idle_with_1C /\
  exec (matrix_break 0x1D ;;; matrix_break 0x1C) idle_with_1C
    = exec (matrix_break 0x1C ;;; matrix_break 0x1D) idle_with_1C.
Proof.
  apply (events_on_distinct_keys_commute 0x1D 0x1C idle_with_1C);
    [ reflexivity | repeat constructor; unfold is_byte; cbn; lia
    | unfold is_byte; lia | unfold is_byte; lia | lia ].
Defined.

(** ** Counting after a change *)

Lemma filter_flip_one (f g : nat -> bool) k (l : list nat) :
  NoDup l -> k ∈ l -> f k = false -> g k = true ->
  (forall i, i ∈ l -> i <> k -> g i = f i) ->
  length (List.filter g l) = S (length (List.filter f l)).
Proof.
  intros Hnd Hin Hf Hg. induction l as [| a l IH]; intros Hother; [inversion Hin|].
  apply NoDup_cons in Hnd as [Ha Hnd]. cbn [List.filter].
  destruct (Nat.eq_dec a k) as [-> | Hak].
  - rewrite Hf, Hg. cbn [length]. f_equal. f_equal.
    apply List.filter_ext_in. intros i Hi. apply list_elem_of_In in Hi.
    apply Hother; [right; exact Hi | intros ->; contradiction].
  - rewrite (Hother a); [|left|exact Hak].
    apply elem_of_cons in Hin as [-> | Hin]; [contradiction|].
    assert (length (List.filter g l) = S (length (List.filter f l))) as E.
    { apply IH; [exact Hnd | exact Hin |]. intros i Hi. apply Hother. right. exact Hi. }
    destruct (f a); cbn [length]; rewrite E; reflexivity.
Qed.

Lemma bitpop_set r col :
  0 <= col < 8 -> Z.testbit r col = false ->
  bitpop (to_uint8 (Z.lor r (Z.shiftl 1 col))) = bitpop r + 1.
Proof.
  intros Hcol Hoff. unfold bitpop.
  rewrite (filter_flip_one (fun i => Z.testbit r (Z.of_nat i)) _ (Z.to_nat col)).
  - lia.
  - apply NoDup_seq.
  - apply elem_of_seq. lia.
  - rewrite Z2Nat.id by lia. exact Hoff.
  - rewrite testbit_set, Z2Nat.id, Z.eqb_refl by lia. apply orb_true_r.
  - intros i Hi Hne. apply elem_of_seq in Hi. rewrite testbit_set by lia.
    rewrite (proj2 (Z.eqb_neq col (Z.of_nat i))) by lia. apply orb_false_r.
Qed.

Lemma bitpop_clr r col :
  0 <= col < 8 -> Z.testbit r col = true ->
  bitpop (to_uint8 (Z.land r (Z.lnot (Z.shiftl 1 col)))) = bitpop r - 1.
Proof.
  intros Hcol Hon. unfold bitpop.
  rewrite (filter_flip_one
             (fun i => Z.testbit (to_uint8 (Z.land r (Z.lnot (Z.shiftl 1 col)))) (Z.of_nat i))
             (fun i => Z.testbit r (Z.of_nat i)) (Z.to_nat col)).
  - lia.
  - apply NoDup_seq.
  - apply elem_of_seq. lia.
  - rewrite testbit_clr, Z2Nat.id, Z.eqb_refl by lia. apply andb_false_r.
  - rewrite Z2Nat.id by lia. exact Hon.
  - intros i Hi Hne. apply elem_of_seq in Hi. rewrite testbit_clr by lia.
    rewrite (proj2 (Z.eqb_neq col (Z.of_nat i))) by lia.
    symmetry. apply andb_true_r.
Qed.

Lemma sum_bitpop_insert (m : list Z) : forall i r r',
  m !! i = Some r ->
  sum_bitpop (<[i:=r']> m) = sum_bitpop m - bitpop r + bitpop r'.
Proof.
  induction m as [| a m IH]; intros [| i] r r' Hr; try discriminate Hr.
  - injection Hr as ->. change (<[0%nat:=r']> (r :: m)) with (r' :: m).
    cbn [sum_bitpop foldr]. fold (sum_bitpop m). lia.
  - change (sum_bitpop (a :: <[i:=r']> m) = sum_bitpop (a :: m) - bitpop r + bitpop r').
    cbn [sum_bitpop foldr]. fold (sum_bitpop m). fold (sum_bitpop (<[i:=r']> m)).
    rewrite (IH i r r' Hr). lia.
Qed.

(** X16: [matrix_make] on a released key raises the number of pressed cells
    by one and [matrix_break] on a pressed key lowers it by one; on a key
    that is already in the wanted state the number stays. *)
Theorem make_and_break_count_one_key c on s :
  wf s -> is_byte c -> is_on_code c s = Some on ->
  (exists s', exec (matrix_make c) s = Some s' /\
              keys_on s' = keys_on s + (if on then 0 else 1)) /\
  (exists s', exec (matrix_break c) s = Some s' /\
              keys_on s' = keys_on s - (if on then 1 else 0)).
Proof.
  intros Hwf Hc. rewrite (is_on_code_eq s c Hwf Hc). intros [= Hon].
  pose proof (lookup_row (matrix s) c Hwf Hc) as Hrow.
  pose proof (COL_range c) as Hcol.
  split.
  - eexists. split; [apply exec_matrix_make; assumption|].
    rewrite !keys_on_eq by (wf_tac || assumption). cbn [matrix].
    unfold set_key. rewrite Hon. destruct on; [lia|].
    rewrite (sum_bitpop_insert _ _ _ _ Hrow), bitpop_set by assumption. lia.
  - eexists. split; [apply exec_matrix_break; assumption|].
    rewrite !keys_on_eq by (wf_tac || assumption). cbn [matrix].
    unfold clr_key. rewrite Hon. destruct on; [|lia].
    rewrite (sum_bitpop_insert _ _ _ _ Hrow), bitpop_clr by assumption. lia.
Qed.

Lemma make_and_break_count_one_key_witness :
  (exists s', exec (matrix_make 0x1C) idle_with_1C = Some s' /\
              keys_on s' = keys_on idle_with_1C + 0) /\
  (exists s', exec (matrix_break 0x1C) idle_with_1C = Some s' /\
              keys_on s' = keys_on idle_with_1C - 1).
Proof.
  apply (make_and_break_count_one_key 0x1C true idle_with_1C);
    [reflexivity | unfold is_byte; lia | vm_compute; reflexivity].
Defined.

(** ** Rows as the caller reads them *)

(** X17: in every state the decoder reaches from power-on, [matrix_get_row]
    returns an 8-bit value for each of the 32 rows, and
    [matrix_is_on(row, col)] is bit [col] of that value. *)
Theorem get_row_agrees_with_is_on rxs :
  Forall (fun rx => is_byte (rx_code rx)) rxs ->
  exists s,
    run rxs power_on = Some s /\
    forall row, 0 <= row < 32 ->
      exists r, eval (matrix_get_row row) s = Some r /\
                0 <= r < 256 /\
                forall col, 0 <= col < 8 ->
                  eval (matrix_is_on row col) s = Some (Z.testbit r col).
Proof.
  intros Hrxs.
  destruct (keeps_run (fun m => length m = MATRIX_ROWS /\ rows_are_bytes m))
    with (rxs := rxs) (s := power_on) as (s & Hrun & Hlen & Hbytes).
  - intros m [Hlen _]. exact Hlen.
  - intros m c [Hlen Hb] _ _. split; [rewrite length_set_key; exact Hlen|].
    apply set_key_bytes, Hb.
  - intros m c [Hlen Hb] _. split; [rewrite length_clr_key; exact Hlen|].
    apply clr_key_bytes, Hb.
  - split; [apply length_replicate|].
    apply Forall_replicate. unfold is_byte. lia.
  - exact Hrxs.
  - split; [reflexivity|]. apply Forall_replicate. unfold is_byte. lia.
  - exists s. split; [exact Hrun|]. intros row Hrow.
    destruct (lookup_lt_is_Some_2 (matrix s) (Z.to_nat row)) as [r Hr];
      [rewrite Hlen; unfold MATRIX_ROWS; lia|].
    exists r. split; [|split].
    + unfold eval, matrix_get_row, matrix_read. rewrite Hr. reflexivity.
    + exact (Forall_lookup_1 is_byte (matrix s) _ r Hbytes Hr).
    + intros col Hcol. unfold eval, matrix_is_on, bind, matrix_read, ret.
      rewrite Hr, mask_test by lia. reflexivity.
Qed.

Lemma get_row_agrees_with_is_on_witness :
  exists s,
    run [byte_ok 0x1C; byte_ok 0xE0; byte_ok 0x75] power_on = Some s /\
    forall row, 0 <= row < 32 ->
      exists r, eval (matrix_get_row row) s = Some r /\
                0 <= r < 256 /\
                forall col, 0 <= col < 8 ->
                  eval (matrix_is_on row col) s = Some (Z.testbit r col).
Proof.
  apply (get_row_agrees_with_is_on [byte_ok 0x1C; byte_ok 0xE0; byte_ok 0x75]).
  repeat constructor; cbn; lia.
Defined.

(** * The thumbstick *)

Example map_value_examples :
  map_value 10 0 = Some (-16) /\ map_value 10 1023 = Some 15 /\
  map_value 10 512 = Some 0 /\ map_value 10 448 = Some (-2) /\
  map_value 10 449 = Some 0 /\ map_value 10 576 = Some 2.
Proof. repeat split; vm_compute; reflexivity. Qed.

Lemma int_val_ok z : -32768 <= z <= 32767 -> int_val z = Some z.
Proof.
  intros Hz. unfold int_val.
  rewrite (proj2 (Z.leb_le _ _)), (proj2 (Z.leb_le _ _)) by lia. reflexivity.
Qed.

Lemma to_int8_small z : -128 <= z <= 127 -> to_int8 z = z.
Proof. intros Hz. unfold to_int8. rewrite Z.mod_small by lia. lia. Qed.

Lemma to_int16_small z : -32768 <= z <= 32767 -> to_int16 z = z.
Proof. intros Hz. unfold to_int16. rewrite Z.mod_small by lia. lia. Qed.

Lemma scaled_range mk a : 0 <= mk <= 63 -> 0 <= a <= 512 ->
  0 <= mk * a <= 32256 /\ 0 <= mk * a / 320 <= 100 /\ 5 * (mk * a / 320) <= 8 * mk.
Proof.
  intros Hmk Ha. assert (0 <= mk * a <= 32256) as Hp by nia.
  split; [exact Hp|].
  assert (0 <= mk * a / 320) as H0 by (apply Z.div_pos; lia).
  assert (mk * a / 320 <= 100) as H1
    by (apply Z.lt_succ_r, Z.div_lt_upper_bound; lia).
  split; [lia|].
  assert (320 * (mk * a / 320) <= mk * a) by (apply Z.mul_div_le; lia).
  nia.
Qed.

(** The value [map_value] returns for a reading of the converter. *)
Lemma map_value_reading mk v :
  0 <= mk <= 63 -> is_reading v ->
  map_value mk v
  = Some (if Z.abs (v - 512) <? 64 then 0
          else if v <? 512 then - (mk * (512 - v) / 320)
               else mk * (v - 512) / 320).
Proof.
  unfold is_reading, STICK_MIN, STICK_MAX. intros Hmk Hv.
  unfold map_value, STICK_CENTER, STICK_SLOP.
  rewrite int_val_ok by lia. cbn [mbind option_bind].
  destruct (Z.ltb_spec (v - 512) 0) as [Hneg | Hpos].
  - rewrite int_val_ok by lia. cbn [mbind option_bind fst snd].
    rewrite (proj2 (Z.ltb_lt v 512)) by lia.
    destruct (Z.ltb_spec (- (v - 512)) 64) as [Hin | Hout].
    + rewrite (proj2 (Z.ltb_lt (Z.abs (v - 512)) 64)) by lia. reflexivity.
    + rewrite (proj2 (Z.ltb_ge (Z.abs (v - 512)) 64)) by lia.
      destruct (scaled_range mk (512 - v)) as (Hp & Hq & _); [lia | lia |].
      rewrite int_val_ok by lia. cbn [mbind option_bind].
      replace (-1 * mk * - (v - 512)) with (- (mk * (512 - v))) by ring.
      rewrite int_val_ok by lia. cbn [mbind option_bind].
      rewrite Z.quot_opp_l, Z.quot_div_nonneg by lia.
      rewrite to_int8_small by lia. reflexivity.
  - cbn [mbind option_bind fst snd].
    rewrite (proj2 (Z.ltb_ge v 512)) by lia.
    destruct (Z.ltb_spec (v - 512) 64) as [Hin | Hout].
    + rewrite (proj2 (Z.ltb_lt (Z.abs (v - 512)) 64)) by lia. reflexivity.
    + rewrite (proj2 (Z.ltb_ge (Z.abs (v - 512)) 64)) by lia.
      destruct (scaled_range mk (v - 512)) as (Hp & Hq & _); [lia | lia |].
      rewrite int_val_ok by lia. cbn [mbind option_bind].
      replace (1 * mk * (v - 512)) with (mk * (v - 512)) by ring.
      rewrite int_val_ok by lia. cbn [mbind option_bind].
      rewrite Z.quot_div_nonneg by lia.
      rewrite to_int8_small by lia. reflexivity.
Qed.

(** ** The mapping of a reading *)

Lemma map_value_dead_zone mk v :
  in_dead_zone v -> map_value mk v = Some 0.
Proof.
  unfold in_dead_zone, STICK_CENTER, STICK_SLOP. intros Hv.
  unfold map_value, STICK_CENTER, STICK_SLOP.
  rewrite int_val_ok by lia. cbn [mbind option_bind].
  destruct (Z.ltb_spec (v - 512) 0) as [Hneg | Hpos].
  - rewrite int_val_ok by lia. cbn [mbind option_bind fst snd].
    rewrite (proj2 (Z.ltb_lt _ _)) by lia. reflexivity.
  - cbn [mbind option_bind fst snd].
    rewrite (proj2 (Z.ltb_lt _ _)) by lia. reflexivity.
Qed.

(** X18: a reading closer to the centre 512 than STICK_SLOP = 64 maps to 0,
    whatever [mk_max_speed] is. *)
Theorem dead_zone_maps_to_zero mk v :
  in_dead_zone v -> map_value mk v = Some 0.
Proof.
  unfold in_dead_zone, STICK_CENTER, STICK_SLOP. intros Hv.
  assert (-32768 <= v - 512 <= 32767 /\ -32768 <= - (v - 512) <= 32767) as [Hd Hn] by lia.
  unfold map_value, STICK_CENTER, STICK_SLOP, int_val.
  rewrite (proj2 (Z.leb_le _ _) (proj1 Hd)), (proj2 (Z.leb_le _ _) (proj2 Hd)).
  cbn [andb mbind option_bind].
  destruct (Z.ltb_spec (v - 512) 0) as [Hneg | Hpos].
  - rewrite (proj2 (Z.leb_le _ _) (proj1 Hn)), (proj2 (Z.leb_le _ _) (proj2 Hn)).
    cbn [andb mbind option_bind fst snd].
    rewrite (proj2 (Z.ltb_lt (- (v - 512)) 64)) by lia. reflexivity.
  - cbn [mbind option_bind fst snd].
    rewrite (proj2 (Z.ltb_lt (v - 512) 64)) by lia. reflexivity.
Qed.

Lemma dead_zone_maps_to_zero_witness : map_value 200 500 = Some 0.
Proof.
  apply (dead_zone_maps_to_zero 200 500).
  unfold in_dead_zone, STICK_CENTER, STICK_SLOP. cbn. lia.
Defined.

(** X19: with [mk_max_speed] at most 63 the mapping is odd around the
    centre: the readings 512 + d and 512 - d give opposite values.  The
    value is at most 8/5 of [mk_max_speed] in size, so it fits the [int8_t]
    result without wrapping, and from [mk_max_speed] 5 on it is not 0
    outside the dead zone. *)
Theorem map_value_is_odd_and_bounded mk d :
  0 <= mk <= 63 -> 0 <= d <= 511 ->
  exists r,
    map_value mk (512 + d) = Some r /\
    map_value mk (512 - d) = Some (- r) /\
    0 <= r /\ 5 * r <= 8 * mk /\
    (5 <= mk -> 64 <= d -> 1 <= r).
Proof.
  intros Hmk Hd.
  rewrite !map_value_reading by (unfold is_reading, STICK_MIN, STICK_MAX; lia).
  replace (512 + d - 512) with d by lia.
  replace (512 - d - 512) with (- d) by lia.
  replace (512 - (512 - d)) with d by lia.
  rewrite Z.abs_opp, (Z.abs_eq d) by lia.
  rewrite (proj2 (Z.ltb_ge (512 + d) 512)) by lia.
  destruct (scaled_range mk d) as (Hp & Hq & Hr); [lia | lia |].
  destruct (Z.ltb_spec d 64) as [Hin | Hout].
  - exists 0. repeat split; lia.
  - rewrite (proj2 (Z.ltb_lt (512 - d) 512)) by lia.
    exists (mk * d / 320). repeat split; try lia.
    intros Hmk5 _. apply Z.div_le_lower_bound; nia.
Qed.

Lemma map_value_is_odd_and_bounded_witness :
  exists r,
    map_value 10 (512 + 300) = Some r /\
    map_value 10 (512 - 300) = Some (- r) /\
    0 <= r /\ 5 * r <= 8 * 10 /\
    (5 <= 10 -> 64 <= 300 -> 1 <= r).
Proof. apply (map_value_is_odd_and_bounded 10 300); lia. Defined.

(** X20: with [mk_max_speed] at most 63 the mapping is monotone over the
    readings 0 to 1023. *)
Theorem map_value_is_monotone mk v v' :
  0 <= mk <= 63 -> is_reading v -> is_reading v' -> v <= v' ->
  exists r r', map_value mk v = Some r /\ map_value mk v' = Some r' /\ r <= r'.
Proof.
  intros Hmk Hv Hv' Hle. rewrite !map_value_reading by assumption.
  eexists _, _. split; [reflexivity | split; [reflexivity|]].
  unfold is_reading, STICK_MIN, STICK_MAX in *.
  assert (forall a, 0 <= a -> 0 <= mk * a / 320) as Hnn
    by (intros a Ha; apply Z.div_pos; nia).
  assert (forall a b, 0 <= a <= b -> mk * a / 320 <= mk * b / 320) as Hmono
    by (intros a b Hab; apply Z.div_le_mono; nia).
  destruct (Z.ltb_spec (Z.abs (v - 512)) 64) as [Hin | Hout];
    destruct (Z.ltb_spec (Z.abs (v' - 512)) 64) as [Hin' | Hout'];
    destruct (Z.ltb_spec v 512) as [Hlow | Hhigh];
    destruct (Z.ltb_spec v' 512) as [Hlow' | Hhigh']; try lia;
    first [ pose proof (Hnn (v' - 512) ltac:(lia)); lia
          | pose proof (Hmono (512 - v') (512 - v) ltac:(lia)); lia
          | pose proof (Hnn (512 - v) ltac:(lia));
            first [ lia | pose proof (Hnn (v' - 512) ltac:(lia)); lia ]
          | pose proof (Hmono (v - 512) (v' - 512) ltac:(lia)); lia ].
Qed.

Lemma map_value_is_monotone_witness :
  exists r r', map_value 10 100 = Some r /\ map_value 10 900 = Some r' /\ r <= r'.
Proof.
  apply (map_value_is_monotone 10 100 900);
    unfold is_reading, STICK_MIN, STICK_MAX; lia.
Defined.

(** ** Reports of the thumbstick *)

(** After [thumbstick_read] the cached value is the value just read, and
    [dirty] is raised when it differs from the cache. *)
Lemma thumbstick_read_eq mk adc last dirty v :
  map_value mk (to_int16 adc) = Some v ->
  thumbstick_read mk adc last dirty = Some (v, v, dirty || negb (v =? last)).
Proof.
  intros Hv. unfold thumbstick_read. rewrite Hv. cbn [mbind option_bind].
  destruct (Z.eqb_spec v last) as [-> | Hne]; cbn [negb].
  - rewrite orb_false_r. reflexivity.
  - rewrite orb_true_r. reflexivity.
Qed.

Lemma process_thumbstick_eq mk adc7 adc6 st x y :
  map_value mk (to_int16 adc7) = Some x ->
  map_value mk (to_int16 adc6) = Some y ->
  process_thumbstick mk adc7 adc6 st
  = Some (if negb (x =? last_x st) || negb (y =? last_y st)
             || negb (x =? 0) || negb (y =? 0)
          then Some (x, - y) else None,
          Stick x y).
Proof.
  intros Hx Hy. unfold process_thumbstick.
  rewrite (thumbstick_read_eq _ _ _ _ _ Hx). cbn [mbind option_bind fst snd].
  rewrite (thumbstick_read_eq _ _ _ _ _ Hy). cbn [mbind option_bind fst snd orb].
  reflexivity.
Qed.

Lemma dead_zone_reading adc :
  in_dead_zone adc -> to_int16 adc = adc.
Proof.
  unfold in_dead_zone, STICK_CENTER, STICK_SLOP. intros H.
  apply to_int16_small. lia.
Qed.

Lemma rest_tick mk adc7 adc6 st :
  in_dead_zone adc7 -> in_dead_zone adc6 ->
  process_thumbstick mk adc7 adc6 st
  = Some (if (last_x st =? 0) && (last_y st =? 0) then None else Some (0, 0),
          Stick 0 0).
Proof.
  intros H7 H6.
  rewrite (process_thumbstick_eq mk adc7 adc6 st 0 0)
    by (rewrite dead_zone_reading by assumption; apply map_value_dead_zone; assumption).
  rewrite (Z.eqb_sym 0 (last_x st)), (Z.eqb_sym 0 (last_y st)).
  destruct (last_x st =? 0), (last_y st =? 0); reflexivity.
Qed.

(** X21: while both readings stay in the dead zone the thumbstick sends at
    most one report, on the first call, and only if the cached values were
    not both 0; that report is (0, 0).  Every later call sends nothing, and
    the cache is (0, 0) afterwards.  This holds for every [mk_max_speed]. *)
Theorem stick_at_rest_falls_silent mk readings st :
  readings <> [] ->
  Forall (fun p => in_dead_zone (fst p) /\ in_dead_zone (snd p)) readings ->
  exists later,
    run_stick mk readings st
    = Some ((if (last_x st =? 0) && (last_y st =? 0) then None else Some (0, 0))
              :: later,
            Stick 0 0) /\
    Forall (fun report => report = None) later.
Proof.
  intros Hne Hall. revert st.
  induction Hall as [| [adc7 adc6] rest [H7 H6] Hrest IH]; [contradiction|].
  intros st. cbn [run_stick fst snd] in *.
  rewrite (rest_tick mk adc7 adc6 st H7 H6). cbn [mbind option_bind fst snd].
  destruct rest as [| p rest'].
  - exists []. split; [reflexivity | constructor].
  - destruct (IH ltac:(discriminate) (Stick 0 0)) as (later & Hrun & Hnone).
    rewrite Hrun. cbn [mbind option_bind fst snd last_x last_y].
    eexists. split; [reflexivity|].
    constructor; [reflexivity | exact Hnone].
Qed.

Lemma stick_at_rest_falls_silent_witness :
  exists later,
    run_stick 10 [(500, 520); (512, 512); (449, 575)] (Stick 7 0)
    = Some ((if (last_x (Stick 7 0) =? 0) && (last_y (Stick 7 0) =? 0)
             then None else Some (0, 0)) :: later,
            Stick 0 0) /\
    Forall (fun report => report = None) later.
Proof.
  apply (stick_at_rest_falls_silent 10 [(500, 520); (512, 512); (449, 575)] (Stick 7 0));
    [discriminate|].
  repeat constructor; unfold in_dead_zone, STICK_CENTER, STICK_SLOP; cbn; lia.
Defined.

(** X22: with [mk_max_speed] from 5 to 63, a call on which either reading
    is outside the dead zone always sends a report, whatever is cached: its
    arguments are the mapped x value and the negated mapped y value, one of
    them not 0, and the mapped values become the cache. *)
Theorem deflected_stick_reports mk adc7 adc6 st :
  5 <= mk <= 63 -> is_reading adc7 -> is_reading adc6 ->
  ~ in_dead_zone adc7 \/ ~ in_dead_zone adc6 ->
  exists x y,
    map_value mk adc7 = Some x /\ map_value mk adc6 = Some y /\
    (x <> 0 \/ y <> 0) /\
    process_thumbstick mk adc7 adc6 st = Some (Some (x, - y), Stick x y).
Proof.
  intros Hmk H7 H6 Hout.
  assert (forall adc, is_reading adc -> ~ in_dead_zone adc ->
            exists v, map_value mk adc = Some v /\ v <> 0) as Hnz.
  { intros adc Hadc Hdz. rewrite map_value_reading by (assumption || lia).
    unfold is_reading, STICK_MIN, STICK_MAX, in_dead_zone, STICK_CENTER, STICK_SLOP in *.
    rewrite (proj2 (Z.ltb_ge (Z.abs (adc - 512)) 64)) by lia.
    eexists. split; [reflexivity|].
    destruct (Z.ltb_spec adc 512) as [Hlow | Hhigh].
    - assert (1 <= mk * (512 - adc) / 320) by (apply Z.div_le_lower_bound; nia). lia.
    - assert (1 <= mk * (adc - 512) / 320) by (apply Z.div_le_lower_bound; nia). lia. }
  assert (forall adc, is_reading adc -> exists v, map_value mk adc = Some v) as Hsome.
  { intros adc Hadc. rewrite map_value_reading by (assumption || lia). eexists. reflexivity. }
  assert (forall adc, is_reading adc -> to_int16 adc = adc) as Hconv.
  { intros adc Hadc. unfold is_reading, STICK_MIN, STICK_MAX in Hadc.
    apply to_int16_small. lia. }
  assert (exists x y, map_value mk adc7 = Some x /\ map_value mk adc6 = Some y /\
                      (x <> 0 \/ y <> 0)) as (x & y & Hx & Hy & Hxy).
  { destruct Hout as [Hout | Hout].
    - destruct (Hnz adc7 H7 Hout) as (x & Hx & Hx0).
      destruct (Hsome adc6 H6) as (y & Hy). exists x, y. tauto.
    - destruct (Hsome adc7 H7) as (x & Hx).
      destruct (Hnz adc6 H6 Hout) as (y & Hy & Hy0). exists x, y. tauto. }
  exists x, y. split; [exact Hx | split; [exact Hy | split; [exact Hxy|]]].
  rewrite (process_thumbstick_eq mk adc7 adc6 st x y)
    by (rewrite Hconv by assumption; assumption).
  assert (negb (x =? 0) || negb (y =? 0) = true) as Hnonzero.
  { destruct Hxy as [H | H]; apply Z.eqb_neq in H; rewrite H;
      [reflexivity | apply orb_true_r]. }
  rewrite <- !orb_assoc, Hnonzero, !orb_true_r. reflexivity.
Qed.

Lemma deflected_stick_reports_witness :
  exists x y,
    map_value 10 900 = Some x /\ map_value 10 512 = Some y /\
    (x <> 0 \/ y <> 0) /\
    process_thumbstick 10 900 512 (Stick 12 0) = Some (Some (x, - y), Stick x y).
Proof.
  apply (deflected_stick_reports 10 900 512 (Stick 12 0));
    [lia | unfold is_reading, STICK_MIN, STICK_MAX; lia
     | unfold is_reading, STICK_MIN, STICK_MAX; lia |].
  left. unfold in_dead_zone, STICK_CENTER, STICK_SLOP. cbn. lia.
Defined.

(** * The extra buttons *)

Lemma read_buttons_bits p1 b1 p2 b2 :
  0 <= b1 -> 0 <= b2 ->
  Z.testbit (read_buttons p1 b1 p2 b2) 0 = negb (Z.testbit p1 b1) /\
  Z.testbit (read_buttons p1 b1 p2 b2) 1 = negb (Z.testbit p2 b2).
Proof.
  intros H1 H2. unfold read_buttons. rewrite !mask_test by assumption.
  destruct (Z.testbit p1 b1), (Z.testbit p2 b2); split; reflexivity.
Qed.

Lemma scan_buttons_commit h b s :
  wf s ->
  (buttons_debouncing b <> hw_buttons h \/ debouncing b = true) ->
  DEBOUNCE < hw_elapsed h ->
  scan_buttons h b s
  = Some (Buttons (hw_buttons h) (hw_buttons h) false
                  (if negb (buttons_debouncing b =? hw_buttons h)
                   then hw_timer h else debouncing_time b),
          Machine
            ((if Z.testbit (hw_buttons h) 1 then set_key 0x10 else clr_key 0x10)
               ((if Z.testbit (hw_buttons h) 0 then set_key 0x08 else clr_key 0x08)
                  (matrix s)))
            (is_modified s
             || xorb (Z.testbit (hw_buttons h) 0) (key_on (matrix s) 0x08)
             || xorb (Z.testbit (hw_buttons h) 1)
                     (key_on ((if Z.testbit (hw_buttons h) 0
                               then set_key 0x08 else clr_key 0x08) (matrix s)) 0x10))
            (state s) (calls s)).
Proof.
  intros Hwf Hpending Helapsed. unfold scan_buttons.
  assert (is_byte 0x08) as H08 by (unfold is_byte; lia).
  assert (is_byte 0x10) as H10 by (unfold is_byte; lia).
  assert (debouncing (if negb (buttons_debouncing b =? hw_buttons h)
                      then Buttons (buttons b) (hw_buttons h) true (hw_timer h)
                      else b) = true) as ->.
  { destruct (Z.eqb_spec (buttons_debouncing b) (hw_buttons h)) as [Heq | Hne];
      cbn [negb debouncing]; [|reflexivity].
    destruct Hpending as [Hne | Hdeb]; [contradiction | exact Hdeb]. }
  rewrite (proj2 (Z.ltb_lt _ _) Helapsed). cbn [andb].
  assert (buttons_debouncing (if negb (buttons_debouncing b =? hw_buttons h)
                              then Buttons (buttons b) (hw_buttons h) true (hw_timer h)
                              else b) = hw_buttons h) as ->.
  { destruct (Z.eqb_spec (buttons_debouncing b) (hw_buttons h)) as [Heq | Hne];
      cbn [negb buttons_debouncing]; [exact Heq | reflexivity]. }
  cbn [buttons]. rewrite !mask_test by lia.
  assert (debouncing_time (if negb (buttons_debouncing b =? hw_buttons h)
                           then Buttons (buttons b) (hw_buttons h) true (hw_timer h)
                           else b)
          = if negb (buttons_debouncing b =? hw_buttons h)
            then hw_timer h else debouncing_time b) as ->
    by (destruct (negb (buttons_debouncing b =? hw_buttons h)); reflexivity).
  unfold bind, ret.
  destruct (Z.testbit (hw_buttons h) 0) eqn:E0;
    [rewrite matrix_make_eq by assumption | rewrite matrix_break_eq by assumption];
    (destruct (Z.testbit (hw_buttons h) 1) eqn:E1;
     [rewrite matrix_make_eq by (wf_tac || assumption)
     | rewrite matrix_break_eq by (wf_tac || assumption)]);
    cbn [matrix is_modified state calls xorb];
    repeat f_equal;
    repeat match goal with
           | |- context [key_on ?m ?c] => destruct (key_on m c)
           end;
    reflexivity.
Qed.

(** X23: when a change of the buttons is pending and [timer_elapsed] exceeds
    DEBOUNCE, the sampled buttons are committed: the cell 0x08 reads pressed
    exactly when the pin of button one is low and the cell 0x10 exactly when
    the pin of button two is low, no other cell changes, and the debouncer
    comes to rest with the sampled value. *)
Theorem buttons_commit_mirrors_pins p1 b1 p2 b2 h b s :
  wf s -> 0 <= b1 -> 0 <= b2 ->
  hw_buttons h = read_buttons p1 b1 p2 b2 ->
  buttons_debouncing b <> hw_buttons h \/ debouncing b = true ->
  DEBOUNCE < hw_elapsed h ->
  exists b' s',
    scan_buttons h b s = Some (b', s') /\
    buttons b' = hw_buttons h /\ buttons_debouncing b' = hw_buttons h /\
    debouncing b' = false /\
    is_on_code 0x08 s' = Some (negb (Z.testbit p1 b1)) /\
    is_on_code 0x10 s' = Some (negb (Z.testbit p2 b2)) /\
    (forall d, is_byte d -> d <> 0x08 -> d <> 0x10 ->
       is_on_code d s' = is_on_code d s) /\
    state s' = state s /\ calls s' = calls s.
Proof.
  intros Hwf Hb1 Hb2 Hread Hpending Helapsed.
  assert (is_byte 0x08) as H08 by (unfold is_byte; lia).
  assert (is_byte 0x10) as H10 by (unfold is_byte; lia).
  destruct (read_buttons_bits p1 b1 p2 b2 Hb1 Hb2) as [Hbit0 Hbit1].
  rewrite <- Hread in Hbit0, Hbit1.
  eexists _, _. split; [apply scan_buttons_commit; assumption|].
  rewrite Hbit0, Hbit1.
  split; [reflexivity | split; [reflexivity | split; [reflexivity|]]].
  assert (forall (f g : list Z -> list Z),
            (f = set_key 0x08 \/ f = clr_key 0x08) ->
            (g = set_key 0x10 \/ g = clr_key 0x10) ->
            length (g (f (matrix s))) = MATRIX_ROWS) as Hlen.
  { intros f g [-> | ->] [-> | ->];
      rewrite ?length_set_key, ?length_clr_key; try exact Hwf;
      rewrite ?length_set_key, ?length_clr_key; exact Hwf. }
  split; [|split; [|split; [|split; reflexivity]]].
  - rewrite is_on_code_eq by (assumption || apply Hlen; destruct (Z.testbit p1 b1), (Z.testbit p2 b2); cbn; tauto).
    cbn [matrix]. f_equal.
    destruct (Z.testbit p1 b1), (Z.testbit p2 b2); cbn [negb];
      rewrite ?key_on_set_key, ?key_on_clr_key
        by (rewrite ?length_set_key, ?length_clr_key; assumption);
      rewrite ?key_on_set_key, ?key_on_clr_key by assumption;
      reflexivity.
  - rewrite is_on_code_eq by (assumption || apply Hlen; destruct (Z.testbit p1 b1), (Z.testbit p2 b2); cbn; tauto).
    cbn [matrix]. f_equal.
    destruct (Z.testbit p1 b1), (Z.testbit p2 b2); cbn [negb];
      rewrite ?key_on_set_key, ?key_on_clr_key
        by (rewrite ?length_set_key, ?length_clr_key; assumption);
      reflexivity.
  - intros d Hd Hd08 Hd10.
    rewrite !is_on_code_eq by (assumption || apply Hlen; destruct (Z.testbit p1 b1), (Z.testbit p2 b2); cbn; tauto).
    cbn [matrix]. f_equal.
    destruct (Z.testbit p1 b1), (Z.testbit p2 b2); cbn [negb];
      rewrite ?key_on_set_key, ?key_on_clr_key
        by (rewrite ?length_set_key, ?length_clr_key; assumption);
      rewrite ?key_on_set_key, ?key_on_clr_key by assumption;
      rewrite (proj2 (Z.eqb_neq 0x08 d)), (proj2 (Z.eqb_neq 0x10 d)) by congruence;
      reflexivity.
Qed.

Lemma buttons_commit_mirrors_pins_witness :
  exists b' s',
    scan_buttons (Hw 1 40 6) (Buttons 0 1 true 34) power_on = Some (b', s') /\
    buttons b' = 1 /\ buttons_debouncing b' = 1 /\
    debouncing b' = false /\
    is_on_code 0x08 s' = Some (negb (Z.testbit 0xF5 1)) /\
    is_on_code 0x10 s' = Some (negb (Z.testbit 0xF5 2)) /\
    (forall d, is_byte d -> d <> 0x08 -> d <> 0x10 ->
       is_on_code d s' = is_on_code d power_on) /\
    state s' = state power_on /\ calls s' = calls power_on.
Proof.
  apply (buttons_commit_mirrors_pins 0xF5 1 0xF5 2 (Hw 1 40 6) (Buttons 0 1 true 34) power_on);
    [ reflexivity | lia | lia | reflexivity | right; reflexivity
    | unfold DEBOUNCE; cbn; lia ].
Defined.

Lemma scan_buttons_no_commit h b s :
  (buttons_debouncing b = hw_buttons h /\ debouncing b = false)
  \/ hw_elapsed h <= DEBOUNCE ->
  scan_buttons h b s = Some (sampled h b, s).
Proof.
  intros Hquiet. unfold scan_buttons. fold (sampled h b).
  assert (debouncing (sampled h b) && (DEBOUNCE <? hw_elapsed h) = false) as ->;
    [|reflexivity].
  destruct Hquiet as [[Heq Hdeb] | Hshort].
  - unfold sampled. rewrite (proj2 (Z.eqb_eq _ _) Heq). cbn [negb].
    rewrite Hdeb. reflexivity.
  - rewrite (proj2 (Z.ltb_ge _ _) Hshort). apply andb_false_r.
Qed.

Lemma with_buttons_no_commit rx h b s :
  (buttons_debouncing b = hw_buttons h /\ debouncing b = false)
  \/ hw_elapsed h <= DEBOUNCE ->
  matrix_scan_with_buttons rx h b s
  = match matrix_scan rx s with
    | Some (_, s') => Some ((1, sampled h b), s')
    | None => None
    end.
Proof.
  intros Hquiet. unfold matrix_scan_with_buttons, matrix_scan, bind.
  destruct (set_is_modified false s) as [[u0 s0]|]; [|reflexivity].
  destruct (pseudo_break s0) as [[u1 s1]|]; [|reflexivity].
  destruct ((if rx_error rx =? 0 then scan_switch (rx_code rx) else ret ()) s1)
    as [[u2 s2]|]; [|reflexivity].
  rewrite (scan_buttons_no_commit h b s2 Hquiet). reflexivity.
Qed.

(** X24: as long as [timer_elapsed] does not exceed DEBOUNCE, whatever the
    buttons do, the build with EXTRA_BUTTONS_ENABLE leaves the machine
    exactly as the build without it, and the committed [buttons] stay as
    they were: a bounce never reaches the matrix. *)
Theorem short_bounces_never_reach_the_matrix ticks : forall b s,
  wf s ->
  Forall (fun t => is_byte (rx_code (fst t)) /\ hw_elapsed (snd t) <= DEBOUNCE) ticks ->
  exists b' s',
    run_with_buttons ticks b s = Some (b', s') /\
    run (map fst ticks) s = Some s' /\
    buttons b' = buttons b.
Proof.
  induction ticks as [| [rx h] ticks IH]; intros b s Hwf Hall.
  - exists b, s. repeat split.
  - apply Forall_cons in Hall as [[Hrx Hshort] Hrest]. cbn [fst snd] in Hrx, Hshort.
    cbn [run_with_buttons map run fst].
    rewrite with_buttons_no_commit by (right; exact Hshort).
    destruct (keeps_matrix_scan (fun m => length m = MATRIX_ROWS)) with (rx := rx) (s := s)
      as (a & s1 & Escan & Hwf1);
      [ trivial | intros; rewrite length_set_key; assumption
      | intros; rewrite length_clr_key; assumption | apply length_replicate
      | exact Hrx | exact Hwf |].
    rewrite Escan.
    destruct (IH (sampled h b) s1 Hwf1 Hrest) as (b' & s' & Hrunb & Hrun & Hbuttons).
    exists b', s'. split; [exact Hrunb | split; [exact Hrun|]].
    rewrite Hbuttons. unfold sampled.
    destruct (negb (buttons_debouncing b =? hw_buttons h)); reflexivity.
Qed.

Lemma short_bounces_never_reach_the_matrix_witness :
  exists b' s',
    run_with_buttons [(byte_ok 0x1C, Hw 1 10 0); (Rx 0 1, Hw 0 12 2); (Rx 0 1, Hw 1 15 3)]
                     (Buttons 0 0 false 0) power_on = Some (b', s') /\
    run (map fst [(byte_ok 0x1C, Hw 1 10 0); (Rx 0 1, Hw 0 12 2); (Rx 0 1, Hw 1 15 3)])
        power_on = Some s' /\
    buttons b' = buttons (Buttons 0 0 false 0).
Proof.
  apply (short_bounces_never_reach_the_matrix
           [(byte_ok 0x1C, Hw 1 10 0); (Rx 0 1, Hw 0 12 2); (Rx 0 1, Hw 1 15 3)]);
    [reflexivity|].
  repeat constructor; unfold is_byte, DEBOUNCE; cbn; lia.
Defined.

Lemma switch_keeps_plain_cell_off d code s :
  0 < d < 0x80 -> is_byte code -> code <> d ->
  wf s -> key_on (matrix s) d = false ->
  exists s', scan_switch code s = Some (tt, s') /\ wf s' /\
             key_on (matrix s') d = false.
Proof.
  intros Hd Hc Hne Hwf Hoff. destruct s as [m md st cl]. cbn [matrix] in Hoff.
  assert (is_byte d) as Hbd by (unfold is_byte; lia).
  destruct st; open_switch; split_ifs; tests_to_Prop; try do_matrix_op;
    (eexists; split; [reflexivity | split; [wf_tac|]]); cbn [matrix];
    rewrite ?key_on_set_key, ?key_on_clr_key, ?key_on_clear by (wf_tac || byte_tac);
    rewrite ?Hoff, ?andb_false_r, ?orb_false_r; try reflexivity;
    apply Z.eqb_neq; unfold F7, PRINT_SCREEN, PAUSE;
    unfold is_byte in *; rewrite ?lor_0x80 by lia; lia.
Qed.

Lemma tick_keeps_plain_cell_off d rx s :
  0 < d < 0x80 -> is_byte (rx_code rx) -> rx_code rx <> d ->
  wf s -> key_on (matrix s) d = false ->
  exists s', matrix_scan rx s = Some (1, s') /\ wf s' /\
             key_on (matrix s') d = false.
Proof.
  intros Hd Hc Hne Hwf Hoff.
  assert (key_on (matrix (after_pseudo_break s)) d = false) as Hoff'.
  { cbn [after_pseudo_break matrix].
    rewrite key_on_clr_key, Hoff by (assumption || apply PAUSE_byte || unfold is_byte; lia).
    apply andb_false_r. }
  rewrite matrix_scan_eq by exact Hwf.
  destruct (negb (rx_error rx =? 0)).
  - eexists. split; [reflexivity | split; [apply wf_after_pseudo_break, Hwf | exact Hoff']].
  - destruct (switch_keeps_plain_cell_off d (rx_code rx) (after_pseudo_break s))
      as (s' & -> & Hwf' & Hoff''); try assumption.
    + apply wf_after_pseudo_break, Hwf.
    + exists s'. split; [reflexivity | split; assumption].
Qed.

Lemma overrun_tick s :
  wf s -> state s = INIT ->
  exists s', matrix_scan (byte_ok 0x00) s = Some (1, s') /\ wf s' /\
             matrix s' = replicate MATRIX_ROWS 0.
Proof.
  intros Hwf Hst. destruct s as [m md st cl]. cbn in Hst. subst st.
  rewrite matrix_scan_eq by exact Hwf.
  cbn [byte_ok rx_error rx_code]. change (negb (0 =? 0)) with false. cbn iota.
  open_switch. do_matrix_op.
  eexists. split; [reflexivity | split; [wf_tac | reflexivity]].
Qed.

(** X25: the buttons are written to the matrix only when a change is
    committed.  With the debouncer at rest and the buttons unchanged, an
    overrun in the idle state clears the cell of a held button like any
    other, and the cell stays released on all later ticks that do not carry
    the button's own code, although [buttons] still records the button as
    held. *)
Theorem held_button_is_dropped_by_a_clear d h0 later b s :
  d = 0x08 \/ d = 0x10 ->
  wf s -> state s = INIT -> debouncing b = false ->
  Forall (fun t => hw_buttons (snd t) = buttons_debouncing b)
         ((byte_ok 0x00, h0) :: later) ->
  Forall (fun t => is_byte (rx_code (fst t)) /\ rx_code (fst t) <> d) later ->
  exists s',
    run_with_buttons ((byte_ok 0x00, h0) :: later) b s = Some (b, s') /\
    is_on_code d s' = Some false.
Proof.
  intros Hd Hwf Hst Hrest Hsame Hlater.
  assert (0 < d < 0x80) as Hd' by lia.
  assert (is_byte d) as Hbd by (unfold is_byte; lia).
  assert (forall h, hw_buttons h = buttons_debouncing b -> sampled h b = b) as Hsampled.
  { intros h Hh. unfold sampled. rewrite Hh, Z.eqb_refl. reflexivity. }
  assert (forall ticks s1, wf s1 -> key_on (matrix s1) d = false ->
            Forall (fun t => hw_buttons (snd t) = buttons_debouncing b) ticks ->
            Forall (fun t => is_byte (rx_code (fst t)) /\ rx_code (fst t) <> d) ticks ->
            exists s', run_with_buttons ticks b s1 = Some (b, s') /\
                       wf s' /\ key_on (matrix s') d = false) as Hind.
  { induction ticks as [| [rx h] ticks IH]; intros s1 Hwf1 Hoff1 Hs Hl.
    - exists s1. repeat split; assumption.
    - apply Forall_cons in Hs as [Hh Hs]. apply Forall_cons in Hl as [[Hrx Hne] Hl].
      cbn [fst snd] in Hh, Hrx, Hne. cbn [run_with_buttons].
      rewrite with_buttons_no_commit by (left; split; [symmetry; exact Hh | exact Hrest]).
      destruct (tick_keeps_plain_cell_off d rx s1 Hd' Hrx Hne Hwf1 Hoff1)
        as (s2 & -> & Hwf2 & Hoff2).
      rewrite (Hsampled h Hh). apply IH; assumption. }
  apply Forall_cons in Hsame as [Hh0 Hsame]. cbn [snd] in Hh0.
  cbn [run_with_buttons].
  rewrite with_buttons_no_commit by (left; split; [symmetry; exact Hh0 | exact Hrest]).
  destruct (overrun_tick s Hwf Hst) as (s1 & -> & Hwf1 & Hm1).
  rewrite (Hsampled h0 Hh0).
  destruct (Hind later s1 Hwf1) as (s' & Hrun & Hwf' & Hoff'); try assumption.
  - rewrite Hm1. apply key_on_clear.
  - exists s'. split; [exact Hrun|]. rewrite is_on_code_eq, Hoff' by assumption. reflexivity.
Qed.

Lemma held_button_is_dropped_by_a_clear_witness :
  is_on_code 0x08 idle_with_button_one = Some true /\
  exists s',
    run_with_buttons
      [(byte_ok 0x00, Hw 1 7 0); (byte_ok 0x1C, Hw 1 8 0); (Rx 0 1, Hw 1 9 0)]
      (Buttons 1 1 false 3) idle_with_button_one
    = Some (Buttons 1 1 false 3, s') /\
    is_on_code 0x08 s' = Some false.
Proof.
  split; [vm_compute; reflexivity|].
  apply (held_button_is_dropped_by_a_clear 0x08 (Hw 1 7 0)
           [(byte_ok 0x1C, Hw 1 8 0); (Rx 0 1, Hw 1 9 0)]
           (Buttons 1 1 false 3) idle_with_button_one);
    [ left; reflexivity | reflexivity | reflexivity | reflexivity
    | repeat constructor | repeat constructor; unfold is_byte; cbn; lia ].
Defined.

(** * Both builds *)

(** The block of the extra buttons writes the cells 0x08 and 0x10 and
    nothing else. *)
Lemma scan_buttons_frame h b s :
  wf s ->
  exists b' s',
    scan_buttons h b s = Some (b', s') /\ wf s' /\
    state s' = state s /\ calls s' = calls s /\
    forall d, is_byte d -> d <> 0x08 -> d <> 0x10 ->
      key_on (matrix s') d = key_on (matrix s) d.
Proof.
  intros Hwf.
  assert (is_byte 0x08) as H08 by (unfold is_byte; lia).
  assert (is_byte 0x10) as H10 by (unfold is_byte; lia).
  assert ((buttons_debouncing b <> hw_buttons h \/ debouncing b = true)
          /\ DEBOUNCE < hw_elapsed h
          \/ ((buttons_debouncing b = hw_buttons h /\ debouncing b = false)
              \/ hw_elapsed h <= DEBOUNCE)) as [[Hpending Hlong] | Hquiet].
  { destruct (Z_lt_le_dec DEBOUNCE (hw_elapsed h)) as [Hlong | Hshort]; [|tauto].
    destruct (Z.eq_dec (buttons_debouncing b) (hw_buttons h)) as [Heq | Hne]; [|tauto].
    destruct (debouncing b); tauto. }
  - rewrite (scan_buttons_commit h b s Hwf Hpending Hlong).
    eexists _, _. split; [reflexivity|]. cbn [matrix state calls].
    split; [|split; [reflexivity | split; [reflexivity|]]].
    + destruct (Z.testbit (hw_buttons h) 0), (Z.testbit (hw_buttons h) 1); wf_tac.
    + intros d Hd Hd08 Hd10.
      destruct (Z.testbit (hw_buttons h) 0), (Z.testbit (hw_buttons h) 1);
        repeat first [ rewrite key_on_set_key by (assumption || len_tac)
                     | rewrite key_on_clr_key by (assumption || len_tac) ];
        rewrite (proj2 (Z.eqb_neq 0x08 d)), (proj2 (Z.eqb_neq 0x10 d)) by congruence;
        reflexivity.
  - rewrite (scan_buttons_no_commit h b s Hquiet).
    exists (sampled h b), s. repeat split; assumption || reflexivity.
Qed.

Lemma with_buttons_eq rx h b s :
  matrix_scan_with_buttons rx h b s
  = match matrix_scan rx s with
    | Some (_, s1) =>
        match scan_buttons h b s1 with
        | Some (b', s') => Some ((1, b'), s')
        | None => None
        end
    | None => None
    end.
Proof.
  unfold matrix_scan_with_buttons, matrix_scan, bind.
  destruct (set_is_modified false s) as [[u0 s0]|]; [|reflexivity].
  destruct (pseudo_break s0) as [[u1 s1]|]; [|reflexivity].
  destruct ((if rx_error rx =? 0 then scan_switch (rx_code rx) else ret ()) s1)
    as [[u2 s2]|]; [|reflexivity].
  unfold ret. destruct (scan_buttons h b s2) as [[b' s']|]; reflexivity.
Qed.

(** Every reachable state has 32 rows and the cell 0x00 released. *)
Lemma reachable_cell0_off s :
  reachable s -> wf s /\ key_on (matrix s) 0x00 = false.
Proof.
  induction 1 as [| rx s r s' _ [Hwf Hoff] Hrx Hscan
                  | h b s b' s' _ [Hwf Hoff] Hbtn
                  | s u s' _ [Hwf Hoff] Hclr
                  | s u s' _ [Hwf Hoff] Hinit].
  - split; [reflexivity | apply key_on_clear].
  - destruct (tick_keeps_cell_off 0x00 rx s) as (t & Ht & Hwft & Hofft);
      [left; reflexivity | assumption | assumption | assumption |].
    rewrite Ht in Hscan. injection Hscan as _ <-. split; assumption.
  - destruct (scan_buttons_frame h b s Hwf) as (b1 & t & Ht & Hwft & _ & _ & Hframe).
    rewrite Ht in Hbtn. injection Hbtn as _ <-. split; [exact Hwft|].
    rewrite Hframe by (unfold is_byte; lia). exact Hoff.
  - rewrite matrix_clear_eq in Hclr by exact Hwf. injection Hclr as _ <-.
    split; [reflexivity | apply key_on_clear].
  - change matrix_init with matrix_clear in Hinit.
    rewrite matrix_clear_eq in Hinit by exact Hwf. injection Hinit as _ <-.
    split; [reflexivity | apply key_on_clear].
Qed.

(** C7: in every state the program can be in, [matrix_key_count] returns
    the number of (row, column) pairs for which [matrix_is_on] is true, and
    immediately after [matrix_clear] it returns 0. *)
Theorem key_count_counts_pressed_cells s :
  reachable s ->
  eval matrix_key_count s = Some (keys_on s) /\
  exists s0, exec matrix_clear s = Some s0 /\
             eval matrix_key_count s0 = Some 0 /\ keys_on s0 = 0.
Proof.
  intros Hreach. destruct (reachable_cell0_off s Hreach) as [Hwf Hoff].
  split.
  - pose proof (keys_on_cell0_off s Hwf Hoff) as Hlt.
    rewrite matrix_key_count_eq, <- keys_on_eq by exact Hwf.
    rewrite Z.mod_small; [reflexivity|]. unfold keys_on in *. lia.
  - eexists. split; [unfold exec; rewrite matrix_clear_eq by exact Hwf; reflexivity|].
    split; vm_compute; reflexivity.
Qed.

Lemma key_count_counts_pressed_cells_witness :
  reachable after_make_1C /\
  keys_on after_make_1C = 1 /\
  eval matrix_key_count after_make_1C = Some (keys_on after_make_1C) /\
  exists s0, exec matrix_clear after_make_1C = Some s0 /\
             eval matrix_key_count s0 = Some 0 /\ keys_on s0 = 0.
Proof.
  assert (reachable after_make_1C) as Hreach.
  { apply (reach_scan (byte_ok 0x1C) power_on 1);
      [apply reach_power_on | unfold is_byte; cbn; lia | vm_compute; reflexivity]. }
  split; [exact Hreach | split; [vm_compute; reflexivity|]].
  apply (key_count_counts_pressed_cells after_make_1C Hreach).
Defined.

(** X9: in the build without EXTRA_BUTTONS_ENABLE a tick either clears the
    whole matrix, and then it calls [clear_keyboard] once, or it leaves
    every cell as it was apart from the pause cell and at most one other,
    and then it does not call [clear_keyboard].  In the build with
    EXTRA_BUTTONS_ENABLE the same holds of every cell other than the two
    button cells 0x08 and 0x10, which a commit in the same tick may set. *)
Theorem tick_changes_at_most_one_key rx h b s :
  wf s -> is_byte (rx_code rx) ->
  (exists s',
     exec (matrix_scan rx) s = Some s' /\
     ((matrix s' = replicate MATRIX_ROWS 0 /\
       calls s' = calls s ++ [Clear_keyboard])
      \/ ((calls s' = calls s \/ calls s' = calls s ++ [Led_set]) /\
          exists c, is_byte c /\
            forall d, is_byte d -> d <> c -> d <> PAUSE ->
              is_on_code d s' = is_on_code d s))) /\
  (exists b' s',
     matrix_scan_with_buttons rx h b s = Some ((1, b'), s') /\
     ((calls s' = calls s ++ [Clear_keyboard] /\
       forall d, is_byte d -> d <> 0x08 -> d <> 0x10 ->
         is_on_code d s' = Some false)
      \/ ((calls s' = calls s \/ calls s' = calls s ++ [Led_set]) /\
          exists c, is_byte c /\
            forall d, is_byte d -> d <> c -> d <> PAUSE ->
              d <> 0x08 -> d <> 0x10 ->
              is_on_code d s' = is_on_code d s))).
Proof.
  intros Hwf Hc.
  pose proof (decoder_tick_changes_at_most_one_key rx s Hwf Hc) as Hplain.
  split; [exact Hplain|].
  destruct Hplain as (s1 & Hscan & Hcases).
  destruct (keeps_matrix_scan (fun m => length m = MATRIX_ROWS)) with (rx := rx) (s := s)
    as (r & t & Et & Hwft);
    [ trivial | intros; rewrite length_set_key; assumption
    | intros; rewrite length_clr_key; assumption | apply length_replicate
    | exact Hc | exact Hwf |].
  unfold exec in Hscan. rewrite Et in Hscan. injection Hscan as ->.
  destruct (scan_buttons_frame h b s1 Hwft) as (b' & s' & Hbtn & Hwf' & _ & Hcalls & Hframe).
  exists b', s'. split; [rewrite with_buttons_eq, Et, Hbtn; reflexivity|].
  rewrite Hcalls.
  destruct Hcases as [[Hm Hck] | [Hno (c & Hbc & Hsame)]].
  - left. split; [exact Hck|]. intros d Hd Hd08 Hd10.
    rewrite is_on_code_eq, Hframe, Hm by assumption. f_equal. apply key_on_clear.
  - right. split; [exact Hno|]. exists c. split; [exact Hbc|].
    intros d Hd Hdc Hp Hd08 Hd10.
    rewrite <- (Hsame d Hd Hdc Hp). rewrite !is_on_code_eq by assumption.
    f_equal. apply Hframe; assumption.
Qed.

Lemma tick_changes_at_most_one_key_witness :
  (exists s',
     exec (matrix_scan (byte_ok 0x1D)) after_make_1C = Some s' /\
     ((matrix s' = replicate MATRIX_ROWS 0 /\
       calls s' = calls after_make_1C ++ [Clear_keyboard])
      \/ ((calls s' = calls after_make_1C \/ calls s' = calls after_make_1C ++ [Led_set]) /\
          exists c, is_byte c /\
            forall d, is_byte d -> d <> c -> d <> PAUSE ->
              is_on_code d s' = is_on_code d after_make_1C))) /\
  (exists b' s',
     matrix_scan_with_buttons (byte_ok 0x1D) (Hw 3 40 6) (Buttons 0 3 true 34)
                              after_make_1C = Some ((1, b'), s') /\
     ((calls s' = calls after_make_1C ++ [Clear_keyboard] /\
       forall d, is_byte d -> d <> 0x08 -> d <> 0x10 ->
         is_on_code d s' = Some false)
      \/ ((calls s' = calls after_make_1C \/ calls s' = calls after_make_1C ++ [Led_set]) /\
          exists c, is_byte c /\
            forall d, is_byte d -> d <> c -> d <> PAUSE ->
              d <> 0x08 -> d <> 0x10 ->
              is_on_code d s' = is_on_code d after_make_1C))).
Proof.
  apply (tick_changes_at_most_one_key (byte_ok 0x1D) (Hw 3 40 6) (Buttons 0 3 true 34)
           after_make_1C); [reflexivity | cbn; unfold is_byte; lia].
Defined.
